(** * The Amber shader-job converter of gfauto ([amber_converter.py])

    A shallow embedding of the text-producing functions of
    [gfauto/amber_converter.py] and the properties of them that the
    specification states.

    Conventions.
    - A Python [str] is a [string]; a character is a code point below 256.
    - A raised exception is the [Raise] case of the [outcome] monad; the
      order in which the source evaluates (and so which exception comes
      first) is kept.
    - A Python [dict] obtained from [json.loads] is an association list in
      the dictionary's iteration order.
    - Local sets and the constant tables are stdpp's [gset] and [gmap]. *)

From stdpp Require Import base strings list gmap pretty.
From Stdlib Require Import Ascii.
From Equations Require Import Equations.
From Equations.Prop Require Import Logic.

Open Scope string_scope.

(** ** Exceptions and the error monad *)

Inductive exn : Type :=
| AssertionError (msg : string)
| ValueError (msg : string)
| IndexError (msg : string)
| KeyError (key : string).

Inductive outcome (A : Type) : Type :=
| Ok (a : A)
| Raise (e : exn).
Arguments Ok {A} a.
Arguments Raise {A} e.

Global Instance outcome_ret : MRet outcome := λ A a, Ok a.
Global Instance outcome_bind : MBind outcome := λ A B f m,
  match m with
  | Ok a => f a
  | Raise e => Raise e
  end.
Global Instance outcome_fmap : FMap outcome := λ A B f m,
  match m with
  | Ok a => Ok (f a)
  | Raise e => Raise e
  end.

(** Modelled from the spec: [gfauto.util.check] is not among the sources.
    Every failure is "raised synchronously at the point of detection":
    [check(condition, exception)] raises [exception] unless [condition]
    holds. *)
Definition check (condition : bool) (exception : exn) : outcome () :=
  if condition then Ok () else Raise exception.

(** ** Python's string and list primitives *)

Module Py.

(** The line feed, ["\n"]. *)
Definition LF : string := String "010"%char "".

(** Truth value of a [str]: the empty string is false. *)
Definition truthy (s : string) : bool :=
  match s with
  | "" => false
  | String _ _ => true
  end.

(** Truth value of an [Optional[str]]: [None] and [""] are false. *)
Definition truthy_opt (o : option string) : bool :=
  match o with
  | None => false
  | Some s => truthy s
  end.

(** Truth value of an [Optional[List[str]]]: [None] and [[]] are false. *)
Definition truthy_list {A} (o : option (list A)) : bool :=
  match o with
  | None | Some [] => false
  | Some (_ :: _) => true
  end.

(** [text.split("\n")]. The result is never the empty list. *)
Fixpoint split_LF (text : string) : list string :=
  match text with
  | "" => [""]
  | String c rest =>
      if Ascii.eqb c "010"%char then "" :: split_LF rest
      else match split_LF rest with
           | line :: lines => String c line :: lines
           | [] => [String c ""]
           end
  end.

(** [sep.join(items)]. *)
Definition join (sep : string) (items : list string) : string :=
  String.concat sep items.

(** [str.isspace] on one character, for the code points below 256. *)
Definition isspace (c : ascii) : bool :=
  let n := nat_of_ascii c in
  bool_decide (9 ≤ n ≤ 13)%nat || bool_decide (28 ≤ n ≤ 32)%nat
  || bool_decide (n = 133) || bool_decide (n = 160).

(** [s.rstrip()]: the trailing white space is removed. *)
Fixpoint rstrip (s : string) : string :=
  match s with
  | "" => ""
  | String c rest =>
      match rstrip rest with
      | "" => if isspace c then "" else String c ""
      | kept => String c kept
      end
  end.

(** [lines[i]], raising [IndexError] out of range. *)
Definition index {A} (l : list A) (i : nat) : outcome A :=
  match l !! i with
  | Some x => Ok x
  | None => Raise (IndexError "list index out of range")
  end.

End Py.

Import Py.

(** ** JSON values of a shader job *)

(** A JSON scalar. A real number is carried as the text that [str] prints
    for it (["256.0"]): the binary floating-point value itself is not
    modelled. *)
Inductive literal : Type :=
| LInt (z : Z)
| LFloat (repr : string)
| LBool (b : bool)
| LStr (s : string)
| LNull.

(** [str(value)], also what an f-string field [{value}] prints. *)
Definition str (v : literal) : string :=
  match v with
  | LInt z => pretty z
  | LFloat repr => repr
  | LBool true => "True"
  | LBool false => "False"
  | LStr s => s
  | LNull => "None"
  end.

(** [{"func": ..., "args": [...], "binding": ...}] *)
Record uniform_entry : Type := UniformEntry {
  func : string;
  args : list literal;
  binding : literal;
}.

(** [{"type": ..., "data": [...]}] *)
Record ssbo_field : Type := SsboField {
  field_type : string;
  field_data : list literal;
}.

(** [{"num_groups": [...], "buffer": {"fields": [...]}}] *)
Record compute_info : Type := ComputeInfo {
  num_groups : list literal;
  buffer_fields : list ssbo_field;
}.

(** The value stored under a key of the job's JSON object has one of the
    two shapes above. Reading a member that the shape lacks is Python's
    [KeyError]. *)
Inductive entry : Type :=
| Uniform (u : uniform_entry)
| Compute (c : compute_info).

(** The parsed JSON object, in iteration order. *)
Abbreviation shader_job_json := (list (string * entry)).

(** [key in d.keys()] and [d[key]]. *)
Fixpoint dict_get (d : shader_job_json) (key : string) : option entry :=
  match d with
  | [] => None
  | (k, v) :: rest => if String.eqb k key then Some v else dict_get rest key
  end.

Definition dict_contains (d : shader_job_json) (key : string) : bool :=
  match dict_get d key with
  | Some _ => true
  | None => false
  end.

Definition dict_item (d : shader_job_json) (key : string) : outcome entry :=
  match dict_get d key with
  | Some v => Ok v
  | None => Raise (KeyError key)
  end.

(** [entry["func"]], [entry["args"]], [entry["binding"]] *)
Definition entry_func (e : entry) : outcome string :=
  match e with
  | Uniform u => Ok (func u)
  | Compute _ => Raise (KeyError "func")
  end.

Definition entry_args (e : entry) : outcome (list literal) :=
  match e with
  | Uniform u => Ok (args u)
  | Compute _ => Raise (KeyError "args")
  end.

Definition entry_binding (e : entry) : outcome literal :=
  match e with
  | Uniform u => Ok (binding u)
  | Compute _ => Raise (KeyError "binding")
  end.

(** [compute_info["buffer"]["fields"]] and [compute_info["num_groups"]] *)
Definition entry_buffer_fields (e : entry) : outcome (list ssbo_field) :=
  match e with
  | Compute c => Ok (buffer_fields c)
  | Uniform _ => Raise (KeyError "buffer")
  end.

Definition entry_num_groups (e : entry) : outcome (list literal) :=
  match e with
  | Compute c => Ok (num_groups c)
  | Uniform _ => Raise (KeyError "num_groups")
  end.

(** ** [amber_converter.py] *)

Definition AMBER_FENCE_TIMEOUT_MS : Z := 60000.

Record AmberfySettings : Type := MkAmberfySettings {
  copyright_header_text : option string;
  add_generated_comment : bool;
  add_graphics_fuzz_comment : bool;
  short_description : option string;
  comment_text : option string;
  use_default_fence_timeout : bool;
  extra_commands : option string;
  spirv_opt_args : option (list string);
  spirv_opt_hash : option string;
}.

(** [get_spirv_opt_args_comment] *)
Definition get_spirv_opt_args_comment
    (spirv_opt_args : option (list string)) (spirv_opt_hash : option string) : string :=
  if negb (truthy_list spirv_opt_args) then ""
  else
    let result := "# Optimized using spirv-opt with the following arguments:" +:+ LF in
    let args := (λ arg, "# '" +:+ arg +:+ "'") <$> default [] spirv_opt_args in
    let result := result +:+ join LF args in
    let result :=
      if truthy_opt spirv_opt_hash
      then result +:+ LF +:+ "# spirv-opt commit hash: " +:+ default "" spirv_opt_hash
      else result in
    result +:+ LF +:+ LF.

(** [get_text_as_comment]: the first loop,
    [while not lines[0]: lines.pop(0)]. *)
Fixpoint pop_leading_empty (lines : list string) : outcome (list string) :=
  match lines with
  | [] => Raise (IndexError "list index out of range")
  | line :: rest => if negb (truthy line) then pop_leading_empty rest else Ok lines
  end.

(** The second loop, [while not lines[-1]: lines.pop()]. Each round removes
    the last line, so the length of [lines] decreases. *)
Equations? pop_trailing_empty (lines : list string) : outcome (list string)
    by wf (length lines) lt :=
  pop_trailing_empty lines with inspect (last lines) := {
    | exist _ None _ => Raise (IndexError "list index out of range")
    | exist _ (Some line) _ =>
        if negb (truthy line) then pop_trailing_empty (removelast lines) else Ok lines }.
Proof.
  destruct lines as [|l0 lines]; [discriminate|].
  rewrite (app_removelast_last "" (l:=l0 :: lines)) at 2 by discriminate.
  rewrite length_app. simpl. lia.
Qed.

Definition get_text_as_comment (text : string) : outcome string :=
  let lines := split_LF text in
  lines ← pop_leading_empty lines;
  lines ← pop_trailing_empty lines;
  let lines := (λ line, rstrip ("# " +:+ line)) <$> lines in
  Ok (join LF lines).

(** [amberscript_comp_buff_def]: the table [ssbo_types]. *)
Definition ssbo_types_items : list (string * string) :=
  [ ("int", "int32");
    ("ivec2", "vec2<int32>");
    ("ivec3", "vec3<int32>");
    ("ivec4", "vec4<int32>");
    ("uint", "uint32");
    ("float", "float");
    ("vec2", "vec2<float>");
    ("vec3", "vec3<float>");
    ("vec4", "vec4<float>") ].

Definition ssbo_types : gmap string string := list_to_map ssbo_types_items.

(** [itertools.chain], applied to the unpacked list of lists. *)
Definition chain {A} (iterables : list (list A)) : list A := concat iterables.

Definition amberscript_comp_buff_def
    (comp : shader_job_json) (make_empty_buffer : bool) : outcome string :=
  _ ← check (dict_contains comp "$compute")
        (AssertionError "Cannot find '$compute' key in JSON file");
  compute_info ← dict_item comp "$compute";
  fields ← entry_buffer_fields compute_info;
  _ ← check (bool_decide (0 < length fields)%nat)
        (AssertionError "Compute shader test with empty SSBO");
  let field_types_set : gset string := list_to_set (field_type <$> fields) in
  _ ← check (bool_decide (size field_types_set = 1))
        (AssertionError "All field types must be the same");
  field0 ← index fields 0;
  let ssbo_type := field_type field0 in
  match ssbo_types !! ssbo_type with
  | None => Raise (ValueError ("Unsupported SSBO datum type: " +:+ ssbo_type))
  | Some ssbo_type_amber =>
      let field_data := field_data <$> fields in
      let field_data_flattened := chain field_data in
      let field_data_flattened_str := str <$> field_data_flattened in
      let result := "" in
      if make_empty_buffer then
        first ← index field_data_flattened_str 0;
        Ok (result +:+ "BUFFER {} DATA_TYPE " +:+ ssbo_type_amber +:+ " SIZE "
              +:+ pretty (length field_data_flattened_str) +:+ " " +:+ first +:+ LF)
      else
        let result := result +:+ "BUFFER {} DATA_TYPE " +:+ ssbo_type_amber +:+ " DATA" +:+ LF in
        let result := result +:+ " " +:+ join " " field_data_flattened_str +:+ LF in
        let result := result +:+ "END" +:+ LF in
        Ok result
  end.

(** [amberscript_comp_num_groups_def] *)
Definition amberscript_comp_num_groups_def (shader_job_info : shader_job_json) : outcome string :=
  compute_info ← dict_item shader_job_info "$compute";
  num_groups ← entry_num_groups compute_info;
  let num_groups_str := str <$> num_groups in
  Ok (join " " num_groups_str).

(** [amberscript_uniform_buffer_bind]: the loop over [uniforms.items()],
    threading [result]. *)
Fixpoint uniform_buffer_bind_loop
    (prefix : string) (items : list (string * entry)) (result : string) : outcome string :=
  match items with
  | [] => Ok result
  | (name, entry) :: items =>
      if String.eqb name "$compute" then uniform_buffer_bind_loop prefix items result
      else
        binding ← entry_binding entry;
        let result := result +:+ "  BIND BUFFER " +:+ prefix +:+ "_" +:+ name
                        +:+ " AS uniform DESCRIPTOR_SET 0 BINDING " +:+ str binding +:+ LF in
        uniform_buffer_bind_loop prefix items result
  end.

Definition amberscript_uniform_buffer_bind (uniforms : shader_job_json) (prefix : string)
    : outcome string :=
  let result := "" in
  uniform_buffer_bind_loop prefix uniforms result.

(** [amberscript_uniform_buffer_def]: the table [uniform_types]. *)
Definition uniform_types_items : list (string * string) :=
  [ ("glUniform1i", "int32");
    ("glUniform2i", "vec2<int32>");
    ("glUniform3i", "vec3<int32>");
    ("glUniform4i", "vec4<int32>");
    ("glUniform1f", "float");
    ("glUniform2f", "vec2<float>");
    ("glUniform3f", "vec3<float>");
    ("glUniform4f", "vec4<float>");
    ("glUniformMatrix2fv", "mat2x2<float>");
    ("glUniformMatrix2x3fv", "mat2x3<float>");
    ("glUniformMatrix2x4fv", "mat2x4<float>");
    ("glUniformMatrix3x2fv", "mat3x2<float>");
    ("glUniformMatrix3fv", "mat3x3<float>");
    ("glUniformMatrix3x4fv", "mat3x4<float>");
    ("glUniformMatrix4x2fv", "mat4x2<float>");
    ("glUniformMatrix4x3fv", "mat4x3<float>");
    ("glUniformMatrix4fv", "mat4x4<float>") ].

Definition uniform_types : gmap string string := list_to_map uniform_types_items.

(** The inner loop, [for arg in entry["args"]: result += f" {arg}"]. *)
Definition append_args (args : list literal) (result : string) : string :=
  foldl (λ result arg, result +:+ " " +:+ str arg) result args.

(** The loop over [uniforms.items()], threading [result]. *)
Fixpoint uniform_buffer_def_loop
    (prefix : string) (items : list (string * entry)) (result : string) : outcome string :=
  match items with
  | [] => Ok result
  | (name, entry) :: items =>
      if String.eqb name "$compute" then uniform_buffer_def_loop prefix items result
      else
        func ← entry_func entry;
        match uniform_types !! func with
        | None => Raise (ValueError ("Error: unknown uniform type for function: " +:+ func))
        | Some uniform_type =>
            let result := result +:+ "# " +:+ name +:+ LF in
            let result := result +:+ "BUFFER " +:+ prefix +:+ "_" +:+ name
                            +:+ " DATA_TYPE " +:+ uniform_type +:+ " DATA" +:+ LF in
            args ← entry_args entry;
            let result := append_args args result in
            let result := result +:+ LF in
            let result := result +:+ "END" +:+ LF in
            uniform_buffer_def_loop prefix items result
        end
  end.

Definition amberscript_uniform_buffer_def (uniforms : shader_job_json) (prefix : string)
    : outcome string :=
  let result := "# uniforms for " +:+ prefix +:+ LF in
  let result := result +:+ LF in
  uniform_buffer_def_loop prefix uniforms result.

(** [translate_type_for_amber] *)
Definition translate_type_for_amber (type_name : string) : string :=
  if String.eqb type_name "bool" then "uint" else type_name.

(** [ShaderType] and its values. *)
Inductive ShaderType : Type := FRAGMENT | VERTEX | COMPUTE.

Definition ShaderType_value (t : ShaderType) : string :=
  match t with
  | FRAGMENT => "fragment"
  | VERTEX => "vertex"
  | COMPUTE => "compute"
  end.

Record Shader : Type := MkShader {
  shader_type : ShaderType;
  shader_spirv_asm : option string;
  shader_source : option string;
  processing_info : string;
}.

(** The attributes of the base class [ShaderJob]. *)
Record ShaderJobBase : Type := MkShaderJobBase {
  name_prefix : string;
  uniform_definitions : string;
  uniform_bindings : string;
}.

(** [ComputeShaderJob(ShaderJob)] *)
Record ComputeShaderJob : Type := MkComputeShaderJob {
  compute_base : ShaderJobBase;
  compute_shader : Shader;
  initial_buffer_definition_template : string;
  empty_buffer_definition_template : string;
  num_groups_def : string;
}.

(** [GraphicsShaderJob(ShaderJob)] *)
Record GraphicsShaderJob : Type := MkGraphicsShaderJob {
  graphics_base : ShaderJobBase;
  vertex_shader : Shader;
  fragment_shader : Shader;
}.

(** A shader job is an instance of one of the two subclasses. *)
Inductive ShaderJob : Type :=
| OfCompute (job : ComputeShaderJob)
| OfGraphics (job : GraphicsShaderJob).

Record ShaderJobBasedAmberTest : Type := MkShaderJobBasedAmberTest {
  reference : option ShaderJob;
  variant : ShaderJob;
}.

(** [assert isinstance(job, GraphicsShaderJob)] *)
Definition assert_isinstance_GraphicsShaderJob (job : ShaderJob) : outcome GraphicsShaderJob :=
  match job with
  | OfGraphics job => Ok job
  | OfCompute _ => Raise (AssertionError "")
  end.

(** [get_amber_script_header] *)
Definition get_amber_script_header (amberfy_settings : AmberfySettings) : outcome string :=
  let result := "#!amber" +:+ LF in
  result ←
    (if truthy_opt (copyright_header_text amberfy_settings) then
       let result := result +:+ LF in
       comment ← get_text_as_comment (default "" (copyright_header_text amberfy_settings));
       let result := result +:+ comment in
       Ok (result +:+ LF +:+ LF)
     else Ok result);
  let result :=
    if add_generated_comment amberfy_settings
    then result +:+ LF +:+ "# Generated." +:+ LF +:+ LF
    else result in
  let result :=
    if add_graphics_fuzz_comment amberfy_settings
    then result +:+ LF +:+ "# A test for a bug found by GraphicsFuzz." +:+ LF
    else result in
  let result :=
    if truthy_opt (short_description amberfy_settings)
    then result +:+ LF +:+ "# Short description: "
           +:+ default "" (short_description amberfy_settings) +:+ LF
    else result in
  result ←
    (if truthy_opt (comment_text amberfy_settings) then
       comment ← get_text_as_comment (default "" (comment_text amberfy_settings));
       Ok (result +:+ LF +:+ comment +:+ LF)
     else Ok result);
  let result :=
    if truthy_list (spirv_opt_args amberfy_settings) then
      let result := result +:+ LF in
      let result := result +:+ get_spirv_opt_args_comment
                      (spirv_opt_args amberfy_settings) (spirv_opt_hash amberfy_settings) in
      result +:+ LF
    else result in
  let result :=
    if negb (use_default_fence_timeout amberfy_settings)
    then result +:+ LF +:+ "SET ENGINE_DATA fence_timeout_ms "
           +:+ pretty AMBER_FENCE_TIMEOUT_MS +:+ LF
    else result in
  Ok result.

(** [get_amber_script_shader_def] *)
Definition get_amber_script_shader_def (shader : Shader) (name : string) : outcome string :=
  let result := "" in
  result ←
    (if truthy_opt (shader_source shader) then
       let result := result +:+ LF +:+ "# " +:+ name
                       +:+ " is derived from the following GLSL:" +:+ LF in
       comment ← get_text_as_comment (default "" (shader_source shader));
       Ok (result +:+ comment)
     else Ok result);
  let result :=
    if truthy_opt (shader_spirv_asm shader) then
      let result := result +:+ LF +:+ "SHADER " +:+ ShaderType_value (shader_type shader)
                      +:+ " " +:+ name +:+ " SPIRV-ASM" +:+ LF in
      let result := result +:+ default "" (shader_spirv_asm shader) in
      result +:+ "END" +:+ LF
    else
      result +:+ LF +:+ "SHADER " +:+ ShaderType_value (shader_type shader)
        +:+ " " +:+ name +:+ " PASSTHROUGH" +:+ LF in
  Ok result.

(** [graphics_shader_job_amber_test_to_amber_script]: the body of the loop
    [for job in jobs], appending the job's part of the script. *)
Definition graphics_job_body (job : GraphicsShaderJob) (result : string) : outcome string :=
  let prefix := name_prefix (graphics_base job) in
  let vertex_shader_name := prefix +:+ "_vertex_shader" in
  let fragment_shader_name := prefix +:+ "_fragment_shader" in
  vertex_def ← get_amber_script_shader_def (vertex_shader job) vertex_shader_name;
  let result := result +:+ vertex_def in
  fragment_def ← get_amber_script_shader_def (fragment_shader job) fragment_shader_name;
  let result := result +:+ fragment_def in
  let result := result +:+ LF in
  let result := result +:+ uniform_definitions (graphics_base job) in
  let result := result +:+ LF +:+ "BUFFER " +:+ prefix +:+ "_framebuffer FORMAT B8G8R8A8_UNORM" +:+ LF in
  let result := result +:+ LF +:+ "PIPELINE graphics " +:+ prefix +:+ "_pipeline" +:+ LF in
  let result := result +:+ "  ATTACH " +:+ vertex_shader_name +:+ LF in
  let result := result +:+ "  ATTACH " +:+ fragment_shader_name +:+ LF in
  let result := result +:+ "  FRAMEBUFFER_SIZE 256 256" +:+ LF in
  let result := result +:+ "  BIND BUFFER " +:+ prefix +:+ "_framebuffer AS color LOCATION 0" +:+ LF in
  let result := result +:+ uniform_bindings (graphics_base job) in
  let result := result +:+ "END" +:+ LF in
  let result := result +:+ "CLEAR_COLOR " +:+ prefix +:+ "_pipeline 0 0 0 255" +:+ LF in
  let result := result +:+ LF +:+ "CLEAR " +:+ prefix +:+ "_pipeline" +:+ LF in
  let result := result +:+ "RUN " +:+ prefix +:+ "_pipeline DRAW_RECT POS 0 0 SIZE 256 256" +:+ LF in
  let result := result +:+ LF in
  Ok result.

Fixpoint graphics_jobs_loop (jobs : list GraphicsShaderJob) (result : string) : outcome string :=
  match jobs with
  | [] => Ok result
  | job :: jobs =>
      result ← graphics_job_body job result;
      graphics_jobs_loop jobs result
  end.

(** The loop [for pipeline_index in range(1, len(jobs))], which adds the
    fuzzy comparison of the framebuffers. *)
Fixpoint compare_loop (jobs : list GraphicsShaderJob) (indices : list nat) (result : string)
    : outcome string :=
  match indices with
  | [] => Ok result
  | pipeline_index :: indices =>
      job_0 ← index jobs 0;
      let prefix_0 := name_prefix (graphics_base job_0) in
      job_1 ← index jobs pipeline_index;
      let prefix_1 := name_prefix (graphics_base job_1) in
      let result := result +:+ "EXPECT " +:+ prefix_0 +:+ "_framebuffer RMSE_BUFFER "
                      +:+ prefix_1 +:+ "_framebuffer TOLERANCE 7" in
      compare_loop jobs indices result
  end.

(** [range(start, stop)] *)
Definition range (start stop : nat) : list nat := seq start (stop - start).

Definition graphics_shader_job_amber_test_to_amber_script
    (shader_job_amber_test : ShaderJobBasedAmberTest) (amberfy_settings : AmberfySettings)
    : outcome string :=
  variant ← assert_isinstance_GraphicsShaderJob (variant shader_job_amber_test);
  result ← get_amber_script_header amberfy_settings;
  let jobs := [variant] in
  jobs ←
    match reference shader_job_amber_test with
    | Some reference =>
        reference ← assert_isinstance_GraphicsShaderJob reference;
        Ok (reference :: jobs)
    | None => Ok jobs
    end;
  result ← graphics_jobs_loop jobs result;
  result ← compare_loop jobs (range 1 (length jobs)) result;
  let result :=
    if truthy_opt (extra_commands amberfy_settings)
    then result +:+ default "" (extra_commands amberfy_settings)
    else result in
  Ok result.

(** ** Notions used in the statements *)

(** The specification's error taxonomy, in terms of what the code raises. *)
Definition MalformedComputeBuffer (e : exn) : Prop :=
  e = AssertionError "Compute shader test with empty SSBO"
  ∨ e = AssertionError "All field types must be the same".

Definition UnsupportedUniformType (e : exn) : Prop :=
  ∃ func, uniform_types !! func = None
          ∧ e = ValueError ("Error: unknown uniform type for function: " +:+ func).

Definition UnsupportedSsboType (e : exn) : Prop :=
  ∃ ssbo_type, ssbo_types !! ssbo_type = None
               ∧ e = ValueError ("Unsupported SSBO datum type: " +:+ ssbo_type).

(** The compute-metadata block of a job. *)
Definition compute_block (job : shader_job_json) (info : compute_info) : Prop :=
  dict_get job "$compute" = Some (Compute info).

(** All the fields have the type [ty]. *)
Definition fields_of_type (ty : string) (fields : list ssbo_field) : Prop :=
  Forall (λ f, field_type f = ty) fields.

(** Two of the fields differ in type. *)
Definition mixed_types (fields : list ssbo_field) : Prop :=
  ∃ f1 f2, f1 ∈ fields ∧ f2 ∈ fields ∧ field_type f1 ≠ field_type f2.

(** The flattened data of the fields, as the source prints them. *)
Definition flattened (fields : list ssbo_field) : list literal :=
  chain (field_data <$> fields).

(** The two forms of the SSBO declaration. *)
Definition literal_buffer (token : string) (values : list literal) : string :=
  "BUFFER {} DATA_TYPE " +:+ token +:+ " DATA" +:+ LF
  +:+ " " +:+ join " " (str <$> values) +:+ LF
  +:+ "END" +:+ LF.

Definition empty_buffer (token : string) (size : nat) (fill : literal) : string :=
  "BUFFER {} DATA_TYPE " +:+ token +:+ " SIZE " +:+ pretty size +:+ " " +:+ str fill +:+ LF.

(** Leading and trailing empty lines stripped. *)
Fixpoint drop_empty (lines : list string) : list string :=
  match lines with
  | [] => []
  | line :: rest => if truthy line then lines else drop_empty rest
  end.

Definition trim_empty_lines (lines : list string) : list string :=
  reverse (drop_empty (reverse (drop_empty lines))).

Definition comment_block (lines : list string) : string :=
  join LF ((λ line, rstrip ("# " +:+ line)) <$> lines).

Definition has_nonempty_line (text : string) : bool :=
  existsb truthy (split_LF text).

(** The uniform map without the reserved key. *)
Definition without_compute_key (uniforms : shader_job_json) : shader_job_json :=
  filter (λ item, item.1 ≠ "$compute") uniforms.

(** The declaration and the binding directive of one uniform. *)
Definition uniform_declaration (prefix : string) (item : string * entry) : outcome string :=
  func ← entry_func item.2;
  match uniform_types !! func with
  | None => Raise (ValueError ("Error: unknown uniform type for function: " +:+ func))
  | Some token =>
      args ← entry_args item.2;
      Ok ("# " +:+ item.1 +:+ LF
          +:+ "BUFFER " +:+ prefix +:+ "_" +:+ item.1 +:+ " DATA_TYPE " +:+ token +:+ " DATA" +:+ LF
          +:+ append_args args "" +:+ LF
          +:+ "END" +:+ LF)
  end.

Definition uniform_binding (prefix : string) (item : string * entry) : outcome string :=
  binding ← entry_binding item.2;
  Ok ("  BIND BUFFER " +:+ prefix +:+ "_" +:+ item.1
      +:+ " AS uniform DESCRIPTOR_SET 0 BINDING " +:+ str binding +:+ LF).

(** The names of the setters, by their shape. *)
Definition vector_setter (components : nat) (kind : string) : string :=
  "glUniform" +:+ pretty components +:+ kind.

Definition matrix_setter (columns rows : nat) : string :=
  if bool_decide (columns = rows)
  then "glUniformMatrix" +:+ pretty columns +:+ "fv"
  else "glUniformMatrix" +:+ pretty columns +:+ "x" +:+ pretty rows +:+ "fv".

Definition vector_token (components : nat) (scalar : string) : string :=
  if bool_decide (components = 1) then scalar
  else "vec" +:+ pretty components +:+ "<" +:+ scalar +:+ ">".

Definition matrix_token (columns rows : nat) : string :=
  "mat" +:+ pretty columns +:+ "x" +:+ pretty rows +:+ "<float>".

Definition supported_setters : list (string * string) :=
  (n ← [1; 2; 3; 4]; [(vector_setter n "i", vector_token n "int32")])
  ++ (n ← [1; 2; 3; 4]; [(vector_setter n "f", vector_token n "float")])
  ++ (c ← [2; 3; 4]; r ← [2; 3; 4]; [(matrix_setter c r, matrix_token c r)]).

(** The comparison directive. *)
Definition expect_directive (prefix_0 prefix_1 : string) : string :=
  "EXPECT " +:+ prefix_0 +:+ "_framebuffer RMSE_BUFFER " +:+ prefix_1
  +:+ "_framebuffer TOLERANCE 7".

Definition comparison_directives (jobs : list GraphicsShaderJob) : list string :=
  match jobs with
  | [] => []
  | first :: others =>
      (λ job, expect_directive (name_prefix (graphics_base first))
                (name_prefix (graphics_base job))) <$> others
  end.

(** The header, section by section. *)
Definition header_sections (s : AmberfySettings) : list (outcome string) :=
  [ Ok ("#!amber" +:+ LF);
    if truthy_opt (copyright_header_text s)
    then (λ comment, LF +:+ comment +:+ LF +:+ LF)
           <$> get_text_as_comment (default "" (copyright_header_text s))
    else Ok "";
    Ok (if add_generated_comment s then LF +:+ "# Generated." +:+ LF +:+ LF else "");
    Ok (if add_graphics_fuzz_comment s
        then LF +:+ "# A test for a bug found by GraphicsFuzz." +:+ LF else "");
    Ok (if truthy_opt (short_description s)
        then LF +:+ "# Short description: " +:+ default "" (short_description s) +:+ LF
        else "");
    if truthy_opt (comment_text s)
    then (λ comment, LF +:+ comment +:+ LF)
           <$> get_text_as_comment (default "" (comment_text s))
    else Ok "";
    Ok (if truthy_list (spirv_opt_args s)
        then LF +:+ get_spirv_opt_args_comment (spirv_opt_args s) (spirv_opt_hash s) +:+ LF
        else "");
    Ok (if negb (use_default_fence_timeout s)
        then LF +:+ "SET ENGINE_DATA fence_timeout_ms 60000" +:+ LF else "") ].

(** The fields of the configuration, and the section each one controls.
    [extra_commands] is not part of the header. *)
Inductive settings_field : Type :=
| CopyrightHeaderText | AddGeneratedComment | AddGraphicsFuzzComment
| ShortDescription | CommentText | UseDefaultFenceTimeout | ExtraCommands
| SpirvOptArgs | SpirvOptHash.

Definition section_of (f : settings_field) : option nat :=
  match f with
  | CopyrightHeaderText => Some 1
  | AddGeneratedComment => Some 2
  | AddGraphicsFuzzComment => Some 3
  | ShortDescription => Some 4
  | CommentText => Some 5
  | SpirvOptArgs | SpirvOptHash => Some 6
  | UseDefaultFenceTimeout => Some 7
  | ExtraCommands => None
  end.

(** The two configurations agree on every field but [f]. *)
Definition differ_only_in (f : settings_field) (s s' : AmberfySettings) : Prop :=
  (f ≠ CopyrightHeaderText → copyright_header_text s = copyright_header_text s')
  ∧ (f ≠ AddGeneratedComment → add_generated_comment s = add_generated_comment s')
  ∧ (f ≠ AddGraphicsFuzzComment → add_graphics_fuzz_comment s = add_graphics_fuzz_comment s')
  ∧ (f ≠ ShortDescription → short_description s = short_description s')
  ∧ (f ≠ CommentText → comment_text s = comment_text s')
  ∧ (f ≠ UseDefaultFenceTimeout → use_default_fence_timeout s = use_default_fence_timeout s')
  ∧ (f ≠ ExtraCommands → extra_commands s = extra_commands s')
  ∧ (f ≠ SpirvOptArgs → spirv_opt_args s = spirv_opt_args s')
  ∧ (f ≠ SpirvOptHash → spirv_opt_hash s = spirv_opt_hash s').

(** The texts of the sections put together, when every section has one. *)
Definition assemble (sections : list (outcome string)) : outcome string :=
  String.concat "" <$> mapM id sections.

(** ** Concrete inputs *)

(** A compute job with [num_groups = [8, 1, 1]] and one integer field
    holding four zeros. *)
Definition four_zeros_job : shader_job_json :=
  [ ("$compute",
     Compute (ComputeInfo [LInt 8; LInt 1; LInt 1]
                [SsboField "int" [LInt 0; LInt 0; LInt 0; LInt 0]])) ].

(** The job of the docstring of [amberscript_comp_buff_def]. *)
Definition docstring_job : shader_job_json :=
  [ ("myuniform", Uniform (UniformEntry "glUniform1f" [LFloat "42.0"] (LInt 3)));
    ("$compute",
     Compute (ComputeInfo [LInt 12; LInt 13; LInt 14]
                [SsboField "int" [LInt 0]; SsboField "int" [LInt 1; LInt 2]])) ].

(** A compute job whose only field has no data. *)
Definition no_data_job : shader_job_json :=
  [ ("$compute", Compute (ComputeInfo [LInt 1; LInt 1; LInt 1] [SsboField "int" []])) ].

(** A compute job with one boolean field. *)
Definition bool_job : shader_job_json :=
  [ ("$compute",
     Compute (ComputeInfo [LInt 1; LInt 1; LInt 1] [SsboField "bool" [LInt 1; LInt 0]])) ].

(** A compute job whose two fields differ in type. *)
Definition mixed_job : shader_job_json :=
  [ ("$compute",
     Compute (ComputeInfo [LInt 1; LInt 1; LInt 1]
                [SsboField "int" [LInt 0]; SsboField "float" [LFloat "1.0"]])) ].

(** [AmberfySettings()], every field at its default. *)
Definition default_settings : AmberfySettings :=
  MkAmberfySettings None false false None None false None None None.

Definition with_copyright (text : string) : AmberfySettings :=
  MkAmberfySettings (Some text) false false None None false None None None.

Definition with_comment (text : string) : AmberfySettings :=
  MkAmberfySettings None false false None (Some text) false None None None.

Definition with_generated_comment (flag : bool) : AmberfySettings :=
  MkAmberfySettings (Some "Copyright 2019") flag true None None false None
    (Some ["-O"]) None.

(** A graphics job without a vertex shader of its own. *)
Definition graphics_job (prefix : string) : GraphicsShaderJob :=
  MkGraphicsShaderJob
    (MkShaderJobBase prefix
       ("# uniforms for " +:+ prefix +:+ LF +:+ LF)
       "")
    (MkShader VERTEX None None "")
    (MkShader FRAGMENT (Some ("; SPIR-V" +:+ LF)) None "").

Definition reference_and_variant : ShaderJobBasedAmberTest :=
  MkShaderJobBasedAmberTest
    (Some (OfGraphics (graphics_job "reference")))
    (OfGraphics (graphics_job "variant")).

(** ** Further notions used in the statements *)

(** The line of a comment block that stands for a line of the text. *)
Definition comment_line (line : string) : string := rstrip ("# " +:+ line).

(** The text has no line feed. *)
Fixpoint LF_free (s : string) : bool :=
  match s with
  | "" => true
  | String c rest => negb (Ascii.eqb c "010"%char) && LF_free rest
  end.

(** The line is a comment of the script. *)
Definition is_comment_line (line : string) : Prop :=
  ∃ rest, line = String "#"%char rest.

(** The text does not end in white space. *)
Definition no_trailing_space (s : string) : Prop := rstrip s = s.

(** [s] ends with [suffix]. *)
Definition ends_with (s suffix : string) : Prop := ∃ before, s = before +:+ suffix.

(** [s] begins with [prefix]. *)
Definition begins_with (s prefix : string) : Prop := ∃ after, s = prefix +:+ after.

(** A text that stops the comment functions: true, and without a line
    that is not empty. *)
Definition blank_text (o : option string) : bool :=
  truthy_opt o && negb (has_nonempty_line (default "" o)).

(** The [SHADER] declaration of a shader. *)
Definition shader_declaration (shader : Shader) (name : string) : string :=
  if truthy_opt (shader_spirv_asm shader)
  then LF +:+ "SHADER " +:+ ShaderType_value (shader_type shader) +:+ " " +:+ name
         +:+ " SPIRV-ASM" +:+ LF +:+ default "" (shader_spirv_asm shader) +:+ "END" +:+ LF
  else LF +:+ "SHADER " +:+ ShaderType_value (shader_type shader) +:+ " " +:+ name
         +:+ " PASSTHROUGH" +:+ LF.

(** The part of the script of one graphics job. *)
Definition graphics_job_part (job : GraphicsShaderJob) : outcome string :=
  graphics_job_body job "".

(** A job file without compute metadata. *)
Definition uniforms_only_job : shader_job_json :=
  [ ("resolution",
     Uniform (UniformEntry "glUniform2f" [LFloat "256.0"; LFloat "256.0"] (LInt 0)));
    ("injectionSwitch",
     Uniform (UniformEntry "glUniform2f" [LFloat "0.0"; LFloat "1.0"] (LInt 1))) ].

(** Compute jobs with two fields of two floats, and with a field of a type
    that the table lacks. *)
Definition vec2_job : shader_job_json :=
  [ ("$compute",
     Compute (ComputeInfo [LInt 1]
                [SsboField "vec2" [LFloat "1.0"; LFloat "2.0"];
                 SsboField "vec2" [LFloat "3.0"; LFloat "4.0"]])) ].

Definition double_job : shader_job_json :=
  [ ("$compute", Compute (ComputeInfo [LInt 1] [SsboField "double" [LFloat "1.0"]])) ].

(** The extra commands that end a script. *)
Definition extra_text (s : AmberfySettings) : string :=
  if truthy_opt (extra_commands s) then default "" (extra_commands s) else "".

(** The comment above a shader that has a source. *)
Definition source_comment (shader : Shader) (name : string) : string :=
  if truthy_opt (shader_source shader)
  then LF +:+ "# " +:+ name +:+ " is derived from the following GLSL:" +:+ LF
         +:+ comment_block (trim_empty_lines (split_LF (default "" (shader_source shader))))
  else "".

(** One of the two shaders of the job has a source that stops
    [get_text_as_comment]. *)
Definition job_has_blank_source (job : GraphicsShaderJob) : bool :=
  blank_text (shader_source (vertex_shader job))
  || blank_text (shader_source (fragment_shader job)).

(** The jobs of a graphics test, the reference first. *)
Definition graphics_test
    (reference_job : option GraphicsShaderJob) (variant_job : GraphicsShaderJob)
    : ShaderJobBasedAmberTest :=
  MkShaderJobBasedAmberTest (OfGraphics <$> reference_job) (OfGraphics variant_job).

(** * Properties *)

(** ** Strings and the error monad *)

Section string_append.
Implicit Types s t u : string.

Lemma append_nil_l s : "" +:+ s = s.
Proof. reflexivity. Qed.

Lemma append_cons c s t : String c s +:+ t = String c (s +:+ t).
Proof. reflexivity. Qed.

Lemma append_nil_r s : s +:+ "" = s.
Proof. induction s as [|c s IH]; [done|]. by rewrite append_cons, IH. Qed.

Lemma append_assoc s t u : (s +:+ t) +:+ u = s +:+ t +:+ u.
Proof. induction s as [|c s IH]; [done|]. by rewrite !append_cons, IH. Qed.
End string_append.

Create Rewrite HintDb strings.
Hint Rewrite append_assoc append_nil_l append_nil_r : strings.

Ltac normalize_strings := autorewrite with strings.

Lemma bind_Ok {A B} (f : A → outcome B) a : Ok a ≫= f = f a.
Proof. reflexivity. Qed.

(** ** The compute buffer emitter *)

Section comp_buff_def.
Implicit Types (job : shader_job_json) (info : compute_info).
Implicit Types (fields : list ssbo_field) (ty token : string).

Lemma field_types_set_singleton ty fields :
  fields ≠ [] → fields_of_type ty fields →
  list_to_set (field_type <$> fields) = ({[ ty ]} : gset string).
Proof.
  intros Hne Hall. apply set_eq. intros x.
  rewrite elem_of_list_to_set, list_elem_of_fmap, elem_of_singleton. split.
  - intros (f & -> & Hf). by eapply Forall_forall in Hall.
  - intros ->. destruct fields as [|f fields]; [done|].
    exists f. split; [|left]. symmetry. by eapply Forall_inv in Hall.
Qed.

Lemma field_types_set_mixed fields :
  mixed_types fields →
  size (list_to_set (field_type <$> fields) : gset string) ≠ 1.
Proof.
  intros (f1 & f2 & H1 & H2 & Hne) Hsize. apply Hne.
  apply (size_singleton_inv _ _ _ Hsize);
    apply elem_of_list_to_set, list_elem_of_fmap; eauto.
Qed.

(** Past the checks, the function is the lookup of the token followed by
    one of the two declarations. *)
Lemma comp_buff_def_checked job info ty (make_empty_buffer : bool) :
  compute_block job info →
  buffer_fields info ≠ [] →
  fields_of_type ty (buffer_fields info) →
  amberscript_comp_buff_def job make_empty_buffer =
    match ssbo_types !! ty with
    | None => Raise (ValueError ("Unsupported SSBO datum type: " +:+ ty))
    | Some token =>
        if make_empty_buffer then
          match flattened (buffer_fields info) with
          | [] => Raise (IndexError "list index out of range")
          | first :: _ =>
              Ok (empty_buffer token (length (flattened (buffer_fields info))) first)
          end
        else Ok (literal_buffer token (flattened (buffer_fields info)))
    end.
Proof.
  intros Hjob Hne Hty. unfold compute_block in Hjob.
  assert (bool_decide (0 < length (buffer_fields info))%nat = true) as Hlen.
  { apply bool_decide_eq_true_2. destruct (buffer_fields info); [done|simpl; lia]. }
  assert (bool_decide (size (list_to_set (field_type <$> buffer_fields info) : gset string) = 1)
          = true) as Hsize.
  { apply bool_decide_eq_true_2.
    by rewrite (field_types_set_singleton ty), size_singleton. }
  unfold amberscript_comp_buff_def, dict_contains, dict_item.
  rewrite Hjob. simpl. rewrite Hlen. simpl. rewrite Hsize. simpl.
  unfold flattened, chain.
  destruct (buffer_fields info) as [|f0 rest] eqn:Hfields; [done|].
  change (index (f0 :: rest) 0) with (Ok f0). rewrite bind_Ok, (Forall_inv Hty).
  destruct (ssbo_types !! ty) as [token|]; [|done].
  destruct make_empty_buffer.
  - unfold index. rewrite list_lookup_fmap, length_fmap.
    by destruct (concat (field_data <$> f0 :: rest)) as [|v vs].
  - unfold literal_buffer. by normalize_strings.
Qed.

Lemma length_flattened fields :
  length (flattened fields) = sum_list_with (λ f, length (field_data f)) fields.
Proof.
  unfold flattened, chain.
  induction fields as [|f fields IH]; [done|].
  simpl. rewrite length_app. f_equal. exact IH.
Qed.

Lemma flattened_no_data fields :
  Forall (λ f, field_data f = []) fields → flattened fields = [].
Proof.
  unfold flattened, chain. induction 1 as [|f fields Hf _ IH]; [done|].
  simpl. rewrite Hf. exact IH.
Qed.

Lemma num_groups_def_block job info :
  compute_block job info →
  amberscript_comp_num_groups_def job = Ok (join " " (str <$> num_groups info)).
Proof.
  unfold compute_block, amberscript_comp_num_groups_def, dict_item.
  by intros ->.
Qed.
End comp_buff_def.

(** C2, as amended. For a well-formed compute-metadata block (a non-empty
    list of fields, all of one supported type) whose fields hold at least
    one data element, [amberscript_comp_buff_def] with
    [make_empty_buffer=True] declares a buffer whose size is the total
    number of data elements of the fields and whose one fill value is the
    first element of the flattened data. *)
Theorem empty_buffer_size_and_fill
    (job : shader_job_json) (info : compute_info) (ty token : string)
    (first : literal) (others : list literal) :
  compute_block job info →
  buffer_fields info ≠ [] →
  fields_of_type ty (buffer_fields info) →
  ssbo_types !! ty = Some token →
  flattened (buffer_fields info) = first :: others →
  amberscript_comp_buff_def job true =
    Ok ("BUFFER {} DATA_TYPE " +:+ token +:+ " SIZE "
        +:+ pretty (sum_list_with (λ f, length (field_data f)) (buffer_fields info))
        +:+ " " +:+ str first +:+ LF).
Proof.
  intros Hjob Hne Hty Htoken Hdata.
  rewrite (comp_buff_def_checked job info ty) by done.
  by rewrite Htoken, <-length_flattened, Hdata.
Qed.

Lemma empty_buffer_size_and_fill_witness :
  amberscript_comp_buff_def docstring_job true
  = Ok ("BUFFER {} DATA_TYPE int32 SIZE 3 0" +:+ LF).
Proof.
  apply (empty_buffer_size_and_fill docstring_job
           (ComputeInfo [LInt 12; LInt 13; LInt 14]
              [SsboField "int" [LInt 0]; SsboField "int" [LInt 1; LInt 2]])
           "int" "int32" (LInt 0) [LInt 1; LInt 2]).
  - reflexivity.
  - discriminate.
  - repeat constructor.
  - reflexivity.
  - reflexivity.
Defined.

(** C2, as stated, fails on a well-formed block whose one field has no
    data: there is no first element, and the function raises. *)
Lemma empty_buffer_no_data_counterexample :
  compute_block no_data_job (ComputeInfo [LInt 1; LInt 1; LInt 1] [SsboField "int" []])
  ∧ fields_of_type "int" [SsboField "int" []]
  ∧ ssbo_types !! "int" = Some "int32"
  ∧ amberscript_comp_buff_def no_data_job true
    = Raise (IndexError "list index out of range").
Proof. repeat split. repeat constructor. Qed.

(** C4. A compute-metadata block whose list of fields is empty, or whose
    fields differ in type (however many there are), makes
    [amberscript_comp_buff_def] raise the error of the failed check, with
    either value of [make_empty_buffer]; no text is returned. *)
Theorem malformed_compute_buffer
    (job : shader_job_json) (info : compute_info) (make_empty_buffer : bool) :
  compute_block job info →
  buffer_fields info = [] ∨ mixed_types (buffer_fields info) →
  ∃ e, amberscript_comp_buff_def job make_empty_buffer = Raise e
       ∧ MalformedComputeBuffer e
       ∧ (buffer_fields info = []
          → e = AssertionError "Compute shader test with empty SSBO")
       ∧ (buffer_fields info ≠ []
          → e = AssertionError "All field types must be the same").
Proof.
  intros Hjob Hbad. unfold compute_block in Hjob.
  unfold amberscript_comp_buff_def, dict_contains, dict_item.
  rewrite Hjob. simpl.
  destruct (decide (buffer_fields info = [])) as [Hnil|Hne].
  - rewrite Hnil. simpl. eexists. split; [done|].
    split; [by left|]. by split.
  - destruct Hbad as [?|Hmixed]; [done|].
    rewrite (bool_decide_eq_true_2 (0 < _)%nat)
      by (destruct (buffer_fields info); [done|simpl; lia]).
    rewrite bool_decide_eq_false_2 by by apply field_types_set_mixed.
    simpl. eexists. split; [done|]. split; [by right|]. by split.
Qed.

Lemma malformed_compute_buffer_witness :
  amberscript_comp_buff_def mixed_job false
  = Raise (AssertionError "All field types must be the same").
Proof.
  destruct (malformed_compute_buffer mixed_job
              (ComputeInfo [LInt 1; LInt 1; LInt 1]
                 [SsboField "int" [LInt 0]; SsboField "float" [LFloat "1.0"]])
              false) as (e & -> & _ & _ & He).
  - reflexivity.
  - right. exists (SsboField "int" [LInt 0]), (SsboField "float" [LFloat "1.0"]).
    split; [left|]. split; [right; left|discriminate].
  - f_equal. apply He. discriminate.
Defined.

(** C5, as amended. [translate_type_for_amber] maps ["bool"] to ["uint"]
    and is the identity on every other type name, and ["uint"] has the
    token [uint32] in the table of SSBO types. [amberscript_comp_buff_def]
    looks the type of the fields up in that table as it is, without the
    translation: a block of boolean fields raises the error of an
    unsupported type. *)
Theorem bool_translated_but_not_in_buff_def
    (job : shader_job_json) (info : compute_info) (make_empty_buffer : bool) :
  compute_block job info →
  buffer_fields info ≠ [] →
  fields_of_type "bool" (buffer_fields info) →
  translate_type_for_amber "bool" = "uint"
  ∧ (∀ type_name, type_name ≠ "bool" → translate_type_for_amber type_name = type_name)
  ∧ ssbo_types !! translate_type_for_amber "bool" = Some "uint32"
  ∧ UnsupportedSsboType (ValueError "Unsupported SSBO datum type: bool")
  ∧ amberscript_comp_buff_def job make_empty_buffer
    = Raise (ValueError "Unsupported SSBO datum type: bool").
Proof.
  intros Hjob Hne Hty. split; [done|]. split; [|split; [done|split]].
  - intros type_name Hother. unfold translate_type_for_amber.
    by destruct (String.eqb_spec type_name "bool").
  - by exists "bool".
  - by rewrite (comp_buff_def_checked job info "bool").
Qed.

Lemma bool_translated_but_not_in_buff_def_witness :
  amberscript_comp_buff_def bool_job true
  = Raise (ValueError "Unsupported SSBO datum type: bool").
Proof.
  refine (proj2 (proj2 (proj2 (proj2
    (bool_translated_but_not_in_buff_def bool_job
       (ComputeInfo [LInt 1; LInt 1; LInt 1] [SsboField "bool" [LInt 1; LInt 0]]) true
       _ _ _))))).
  - reflexivity.
  - discriminate.
  - repeat constructor.
Defined.

(** C5, as stated, fails: a boolean field does not yield the token of
    ["uint"], the function raises. *)
Lemma bool_field_counterexample :
  compute_block bool_job
    (ComputeInfo [LInt 1; LInt 1; LInt 1] [SsboField "bool" [LInt 1; LInt 0]])
  ∧ amberscript_comp_buff_def bool_job false
    = Raise (ValueError "Unsupported SSBO datum type: bool")
  ∧ amberscript_comp_buff_def bool_job true
    = Raise (ValueError "Unsupported SSBO datum type: bool").
Proof. by repeat split. Qed.

(** C7. A job whose [$compute] block has [num_groups = [8, 1, 1]] and one
    field of type [int] with data [[0, 0, 0, 0]]:
    [amberscript_comp_num_groups_def] gives ["8 1 1"], the literal
    declaration lists four zeros, and the empty-buffer declaration has
    size 4 and the fill value 0. *)
Theorem four_zeros_scenario (job : shader_job_json) :
  compute_block job
    (ComputeInfo [LInt 8; LInt 1; LInt 1]
       [SsboField "int" [LInt 0; LInt 0; LInt 0; LInt 0]]) →
  amberscript_comp_num_groups_def job = Ok "8 1 1"
  ∧ amberscript_comp_buff_def job false
    = Ok ("BUFFER {} DATA_TYPE int32 DATA" +:+ LF +:+ " 0 0 0 0" +:+ LF +:+ "END" +:+ LF)
  ∧ amberscript_comp_buff_def job true
    = Ok ("BUFFER {} DATA_TYPE int32 SIZE 4 0" +:+ LF).
Proof.
  intros Hjob. split; [by rewrite (num_groups_def_block _ _ Hjob)|].
  split.
  - rewrite (comp_buff_def_checked _ _ "int" false Hjob); [done..|].
    by repeat constructor.
  - rewrite (comp_buff_def_checked _ _ "int" true Hjob); [done..|].
    by repeat constructor.
Qed.

Lemma four_zeros_scenario_witness :
  amberscript_comp_num_groups_def four_zeros_job = Ok "8 1 1"
  ∧ amberscript_comp_buff_def four_zeros_job false
    = Ok ("BUFFER {} DATA_TYPE int32 DATA" +:+ LF +:+ " 0 0 0 0" +:+ LF +:+ "END" +:+ LF)
  ∧ amberscript_comp_buff_def four_zeros_job true
    = Ok ("BUFFER {} DATA_TYPE int32 SIZE 4 0" +:+ LF).
Proof. apply (four_zeros_scenario four_zeros_job). reflexivity. Defined.

(** C10. The check that the list of fields is not empty leaves room for
    fields without data. For a block that passes the checks and whose
    fields all have an empty data list, [make_empty_buffer=True] fails at
    the first flattened element, and [make_empty_buffer=False] returns a
    declaration that lists no value. *)
Theorem fields_without_data
    (job : shader_job_json) (info : compute_info) (ty token : string) :
  compute_block job info →
  buffer_fields info ≠ [] →
  fields_of_type ty (buffer_fields info) →
  ssbo_types !! ty = Some token →
  Forall (λ f, field_data f = []) (buffer_fields info) →
  amberscript_comp_buff_def job true = Raise (IndexError "list index out of range")
  ∧ amberscript_comp_buff_def job false
    = Ok ("BUFFER {} DATA_TYPE " +:+ token +:+ " DATA" +:+ LF
          +:+ " " +:+ LF +:+ "END" +:+ LF).
Proof.
  intros Hjob Hne Hty Htoken Hdata.
  rewrite !(comp_buff_def_checked job info ty) by done.
  rewrite Htoken, (flattened_no_data _ Hdata). by split.
Qed.

Lemma fields_without_data_witness :
  amberscript_comp_buff_def no_data_job true = Raise (IndexError "list index out of range")
  ∧ amberscript_comp_buff_def no_data_job false
    = Ok ("BUFFER {} DATA_TYPE int32 DATA" +:+ LF +:+ " " +:+ LF +:+ "END" +:+ LF).
Proof.
  apply (fields_without_data no_data_job
           (ComputeInfo [LInt 1; LInt 1; LInt 1] [SsboField "int" []]) "int" "int32").
  - reflexivity.
  - discriminate.
  - repeat constructor.
  - reflexivity.
  - repeat constructor.
Defined.

(** ** The uniform emitter *)

Section uniform_emitter.
Implicit Types (prefix name : string) (items uniforms : shader_job_json).
Local Arguments String.concat : simpl never.

Lemma concat_empty_cons (d : string) (ds : list string) :
  String.concat "" (d :: ds) = d +:+ String.concat "" ds.
Proof. destruct ds; simpl; [by rewrite append_nil_r|done]. Qed.

Lemma mapM_Ok {A B} (f : A → outcome B) (l : list A) (k : list B) :
  mapM f l = Ok k ↔ Forall2 (λ x y, f x = Ok y) l k.
Proof.
  split.
  - revert k. induction l as [|x l IH]; intros k Hk; simpl in Hk.
    + injection Hk as <-. constructor.
    + destruct (f x) as [y|e] eqn:Hx; [|discriminate].
      destruct (mapM f l) as [k'|e] eqn:Hl; [|discriminate].
      injection Hk as <-. constructor; [done|]. by apply IH.
  - induction 1 as [|x y l k Hx _ IH]; simpl; [done|].
    by rewrite Hx, IH.
Qed.

Lemma append_args_acc (args : list literal) (acc : string) :
  append_args args acc = acc +:+ append_args args "".
Proof.
  unfold append_args. revert acc.
  induction args as [|arg args IH]; intros acc; simpl.
  - by rewrite append_nil_r.
  - rewrite IH, (IH (_ +:+ _)). by normalize_strings.
Qed.

Lemma without_compute_key_cons name (e : entry) items :
  without_compute_key ((name, e) :: items) =
    if String.eqb name "$compute" then without_compute_key items
    else (name, e) :: without_compute_key items.
Proof.
  unfold without_compute_key. rewrite filter_cons. simpl.
  destruct (String.eqb_spec name "$compute"); by case_decide.
Qed.

Lemma without_compute_key_idemp items :
  without_compute_key (without_compute_key items) = without_compute_key items.
Proof.
  unfold without_compute_key. apply list_filter_filter_l. tauto.
Qed.

(** The loops, each as one text per remaining item. *)
Lemma uniform_buffer_def_loop_mapM prefix items (acc : string) :
  uniform_buffer_def_loop prefix items acc =
    (λ decls, acc +:+ String.concat "" decls)
      <$> mapM (uniform_declaration prefix) (without_compute_key items).
Proof.
  revert acc. induction items as [|[name e] items IH]; intros acc.
  - simpl. by rewrite append_nil_r.
  - rewrite without_compute_key_cons. simpl.
    destruct (String.eqb name "$compute"); [apply IH|].
    unfold uniform_declaration at 1. simpl.
    destruct e as [u|c]; simpl; [|done].
    destruct (uniform_types !! func u) as [token|]; simpl; [|done].
    rewrite IH.
    destruct (mapM _ _) as [decls|err]; simpl; [|done].
    f_equal. rewrite concat_empty_cons, (append_args_acc _ (_ +:+ _)).
    by normalize_strings.
Qed.

Lemma uniform_buffer_bind_loop_mapM prefix items (acc : string) :
  uniform_buffer_bind_loop prefix items acc =
    (λ binds, acc +:+ String.concat "" binds)
      <$> mapM (uniform_binding prefix) (without_compute_key items).
Proof.
  revert acc. induction items as [|[name e] items IH]; intros acc.
  - simpl. by rewrite append_nil_r.
  - rewrite without_compute_key_cons. simpl.
    destruct (String.eqb name "$compute"); [apply IH|].
    unfold uniform_binding at 1. simpl.
    destruct e as [u|c]; simpl; [|done].
    rewrite IH.
    destruct (mapM _ _) as [binds|err]; simpl; [|done].
    f_equal. rewrite concat_empty_cons. by normalize_strings.
Qed.

(** The loop over a list in two parts. *)
Lemma uniform_buffer_def_loop_app prefix items items' (acc : string) :
  uniform_buffer_def_loop prefix (items ++ items') acc =
    uniform_buffer_def_loop prefix items acc ≫= uniform_buffer_def_loop prefix items'.
Proof.
  revert acc. induction items as [|[name e] items IH]; intros acc; [done|].
  simpl. destruct (String.eqb name "$compute"); [apply IH|].
  destruct e as [u|c]; simpl; [|done].
  destruct (uniform_types !! func u); simpl; [apply IH|done].
Qed.

Lemma supported_setters_table : supported_setters = uniform_types_items.
Proof. reflexivity. Qed.

Lemma uniform_types_supported (func token : string) :
  (func, token) ∈ supported_setters → uniform_types !! func = Some token.
Proof.
  rewrite supported_setters_table. unfold uniform_types.
  intros Hin. apply elem_of_list_to_map_1; [|done].
  apply (bool_decide_unpack _). by vm_compute.
Qed.

Lemma uniform_types_unsupported (func : string) :
  func ∉ supported_setters.*1 → uniform_types !! func = None.
Proof.
  rewrite supported_setters_table. apply not_elem_of_list_to_map_1.
Qed.
End uniform_emitter.

(** C3. In a uniform map, let an entry that is not under the reserved key
    follow entries for which [amberscript_uniform_buffer_def] succeeds.
    If its setter is one of the supported ones (the int and float setters
    of 1 to 4 components, the matrix setters of 2x2 to 4x4), its
    declaration is emitted with the type token of the table; with any
    other setter the function raises the error of an unknown uniform
    type, whatever follows the entry. *)
Theorem uniform_setter_tokens
    (prefix name : string) (u : uniform_entry) (before after : shader_job_json)
    (text : string) :
  name ≠ "$compute" →
  amberscript_uniform_buffer_def before prefix = Ok text →
  (∀ token, (func u, token) ∈ supported_setters →
     uniform_types !! func u = Some token
     ∧ amberscript_uniform_buffer_def (before ++ [(name, Uniform u)]) prefix
       = Ok (text +:+ "# " +:+ name +:+ LF
             +:+ "BUFFER " +:+ prefix +:+ "_" +:+ name
             +:+ " DATA_TYPE " +:+ token +:+ " DATA" +:+ LF
             +:+ append_args (args u) "" +:+ LF
             +:+ "END" +:+ LF))
  ∧ (func u ∉ supported_setters.*1 →
     UnsupportedUniformType
       (ValueError ("Error: unknown uniform type for function: " +:+ func u))
     ∧ amberscript_uniform_buffer_def (before ++ (name, Uniform u) :: after) prefix
       = Raise (ValueError ("Error: unknown uniform type for function: " +:+ func u))).
Proof.
  intros Hname Hbefore. unfold amberscript_uniform_buffer_def in *.
  apply String.eqb_neq in Hname.
  split.
  - intros token Hin. apply uniform_types_supported in Hin as Htoken.
    split; [done|].
    rewrite uniform_buffer_def_loop_app, Hbefore. simpl.
    rewrite Hname, Htoken. simpl.
    rewrite (append_args_acc _ (_ +:+ _)). by normalize_strings.
  - intros Hout. apply uniform_types_unsupported in Hout as Hnone.
    split; [by exists (func u)|].
    rewrite uniform_buffer_def_loop_app, Hbefore. simpl.
    by rewrite Hname, Hnone.
Qed.

Lemma uniform_setter_tokens_witness :
  amberscript_uniform_buffer_def
    [("res", Uniform (UniformEntry "glUniform2f" [LFloat "256.0"; LFloat "256.0"] (LInt 2)))]
    "reference"
  = Ok ("# uniforms for reference" +:+ LF +:+ LF +:+ "# res" +:+ LF
        +:+ "BUFFER reference_res DATA_TYPE vec2<float> DATA" +:+ LF
        +:+ " 256.0 256.0" +:+ LF +:+ "END" +:+ LF)
  ∧ amberscript_uniform_buffer_def
      [("res", Uniform (UniformEntry "glUniform2ui" [LInt 1; LInt 2] (LInt 2)));
       ("time", Uniform (UniformEntry "glUniform1f" [LFloat "0.0"] (LInt 3)))]
      "reference"
    = Raise (ValueError "Error: unknown uniform type for function: glUniform2ui").
Proof.
  split.
  - destruct (uniform_setter_tokens "reference" "res"
                (UniformEntry "glUniform2f" [LFloat "256.0"; LFloat "256.0"] (LInt 2))
                [] [] ("# uniforms for reference" +:+ LF +:+ LF)) as [Hsupported _].
    + discriminate.
    + reflexivity.
    + apply (Hsupported "vec2<float>").
      apply (bool_decide_unpack _). vm_compute. exact I.
  - destruct (uniform_setter_tokens "reference" "res"
                (UniformEntry "glUniform2ui" [LInt 1; LInt 2] (LInt 2))
                [] [("time", Uniform (UniformEntry "glUniform1f" [LFloat "0.0"] (LInt 3)))]
                ("# uniforms for reference" +:+ LF +:+ LF)) as [_ Hunsupported].
    + discriminate.
    + reflexivity.
    + apply Hunsupported.
      apply (bool_decide_unpack _). vm_compute. exact I.
Defined.

(** C8. [amberscript_uniform_buffer_def] and
    [amberscript_uniform_buffer_bind] skip the key ["$compute"]: each gives
    on a map what it gives on the map without that key, and it returns a
    text exactly when every remaining key has its declaration (its binding
    directive), the text being these, one per key, in the order in which
    the map iterates. *)
Theorem compute_key_skipped (uniforms : shader_job_json) (prefix : string) :
  amberscript_uniform_buffer_def uniforms prefix
  = amberscript_uniform_buffer_def (without_compute_key uniforms) prefix
  ∧ amberscript_uniform_buffer_bind uniforms prefix
    = amberscript_uniform_buffer_bind (without_compute_key uniforms) prefix
  ∧ (∀ text,
       amberscript_uniform_buffer_def uniforms prefix = Ok text ↔
       ∃ decls,
         Forall2 (λ item decl, uniform_declaration prefix item = Ok decl)
           (without_compute_key uniforms) decls
         ∧ text = "# uniforms for " +:+ prefix +:+ LF +:+ LF +:+ String.concat "" decls)
  ∧ (∀ text,
       amberscript_uniform_buffer_bind uniforms prefix = Ok text ↔
       ∃ binds,
         Forall2 (λ item bind, uniform_binding prefix item = Ok bind)
           (without_compute_key uniforms) binds
         ∧ text = String.concat "" binds).
Proof.
  unfold amberscript_uniform_buffer_def, amberscript_uniform_buffer_bind.
  split; [|split; [|split]].
  - by rewrite !uniform_buffer_def_loop_mapM, without_compute_key_idemp.
  - by rewrite !uniform_buffer_bind_loop_mapM, without_compute_key_idemp.
  - intros text. rewrite uniform_buffer_def_loop_mapM.
    destruct (mapM _ _) as [decls|err] eqn:Hm; simpl.
    + apply mapM_Ok in Hm. split.
      * intros [= <-]. exists decls. split; [done|]. by normalize_strings.
      * intros (decls' & Hm' & ->). apply mapM_Ok in Hm, Hm'.
        rewrite Hm in Hm'. injection Hm' as <-. by normalize_strings.
    + split; [done|]. intros (decls & Hm' & _).
      apply mapM_Ok in Hm'. by rewrite Hm in Hm'.
  - intros text. rewrite uniform_buffer_bind_loop_mapM.
    destruct (mapM _ _) as [binds|err] eqn:Hm; simpl.
    + apply mapM_Ok in Hm. split.
      * intros [= <-]. by exists binds.
      * intros (binds' & Hm' & ->). apply mapM_Ok in Hm, Hm'.
        rewrite Hm in Hm'. by injection Hm' as <-.
    + split; [done|]. intros (binds & Hm' & _).
      apply mapM_Ok in Hm'. by rewrite Hm in Hm'.
Qed.

Lemma compute_key_skipped_witness :
  amberscript_uniform_buffer_def docstring_job "variant"
  = Ok ("# uniforms for variant" +:+ LF +:+ LF +:+ "# myuniform" +:+ LF
        +:+ "BUFFER variant_myuniform DATA_TYPE float DATA" +:+ LF
        +:+ " 42.0" +:+ LF +:+ "END" +:+ LF)
  ∧ amberscript_uniform_buffer_bind docstring_job "variant"
    = Ok ("  BIND BUFFER variant_myuniform AS uniform DESCRIPTOR_SET 0 BINDING 3" +:+ LF).
Proof.
  destruct (compute_key_skipped docstring_job "variant") as (_ & _ & Hdef & Hbind).
  split.
  - apply Hdef.
    exists ["# myuniform" +:+ LF +:+ "BUFFER variant_myuniform DATA_TYPE float DATA" +:+ LF
            +:+ " 42.0" +:+ LF +:+ "END" +:+ LF].
    split; [|reflexivity]. repeat constructor.
  - apply Hbind.
    exists ["  BIND BUFFER variant_myuniform AS uniform DESCRIPTOR_SET 0 BINDING 3" +:+ LF].
    split; [|reflexivity]. repeat constructor.
Defined.

(** ** Text as a comment *)

Section text_as_comment.
Implicit Types (lines kept : list string) (line text : string).

Lemma pop_leading_empty_spec lines :
  pop_leading_empty lines =
    if existsb truthy lines then Ok (drop_empty lines)
    else Raise (IndexError "list index out of range").
Proof.
  induction lines as [|line lines IH]; [done|].
  simpl. by destruct (truthy line).
Qed.

Lemma pop_trailing_empty_nil :
  pop_trailing_empty [] = Raise (IndexError "list index out of range").
Proof. by simp pop_trailing_empty. Qed.

Lemma pop_trailing_empty_snoc lines line :
  pop_trailing_empty (lines ++ [line])%list =
    if truthy line then Ok (lines ++ [line])%list else pop_trailing_empty lines.
Proof.
  rewrite pop_trailing_empty_equation_1. unfold inspect.
  generalize (@eq_refl _ (last (lines ++ [line])%list)).
  generalize (last (lines ++ [line])%list) at 2 4.
  intros o Ho.
  assert (o = Some line) as -> by (rewrite <- Ho; apply last_snoc).
  simpl. rewrite removelast_last. by destruct (truthy line).
Qed.

Lemma pop_trailing_empty_spec lines :
  pop_trailing_empty lines =
    if existsb truthy lines then Ok (reverse (drop_empty (reverse lines)))
    else Raise (IndexError "list index out of range").
Proof.
  induction lines as [|line lines IH] using rev_ind.
  - apply pop_trailing_empty_nil.
  - rewrite pop_trailing_empty_snoc, existsb_app, reverse_snoc. simpl.
    destruct (truthy line).
    + by rewrite orb_true_r, reverse_cons, reverse_involutive.
    + by rewrite orb_false_r.
Qed.

Lemma truthy_false line : truthy line = false → line = "".
Proof. by destruct line. Qed.

Lemma truthy_true line : truthy line = true ↔ line ≠ "".
Proof. by destruct line. Qed.

Lemma existsb_drop_empty lines :
  existsb truthy (drop_empty lines) = existsb truthy lines.
Proof.
  induction lines as [|line lines IH]; [done|].
  simpl. by destruct (truthy line) eqn:Hline; simpl; rewrite ?Hline.
Qed.

(** What [drop_empty] drops are empty lines, and it stops at a line that
    is not empty. *)
Lemma drop_empty_dropped lines :
  ∃ n, lines = (replicate n "" ++ drop_empty lines)%list.
Proof.
  induction lines as [|line lines [n IH]]; [by exists 0|].
  simpl. destruct (truthy line) eqn:Hline; [by exists 0|].
  exists (S n). simpl. by rewrite (truthy_false _ Hline), <-IH.
Qed.

Lemma drop_empty_head lines line :
  head (drop_empty lines) = Some line → line ≠ "".
Proof.
  induction lines as [|l lines IH]; [done|].
  simpl. destruct (truthy l) eqn:Hl; [|done].
  intros [= <-]. by apply truthy_true.
Qed.

Lemma existsb_reverse lines :
  existsb truthy (reverse lines) = existsb truthy lines.
Proof.
  induction lines as [|l lines IH]; [done|].
  rewrite reverse_cons, existsb_app, IH. simpl.
  by rewrite orb_false_r, orb_comm.
Qed.

Lemma drop_empty_nil lines :
  drop_empty lines = [] → existsb truthy lines = false.
Proof.
  induction lines as [|l lines IH]; [done|].
  simpl. by destruct (truthy l).
Qed.

(** [trim_empty_lines] removes empty lines at both ends, up to lines that
    are not empty. *)
Lemma trim_empty_lines_spec lines :
  existsb truthy lines = true →
  ∃ before after first last_line,
    lines = (replicate before "" ++ trim_empty_lines lines ++ replicate after "")%list
    ∧ head (trim_empty_lines lines) = Some first ∧ first ≠ ""
    ∧ last (trim_empty_lines lines) = Some last_line ∧ last_line ≠ "".
Proof.
  intros Hsome. unfold trim_empty_lines.
  destruct (drop_empty_dropped lines) as [before Hbefore].
  destruct (drop_empty_dropped (reverse (drop_empty lines))) as [after Hafter].
  apply (f_equal reverse) in Hafter.
  rewrite reverse_involutive, reverse_app, reverse_replicate in Hafter.
  set (kept := reverse (drop_empty (reverse (drop_empty lines)))) in *.
  assert (existsb truthy (drop_empty lines) = true) as Hsome'
    by by rewrite existsb_drop_empty.
  destruct (last kept) as [last_line|] eqn:Hlast.
  2: { apply last_None in Hlast. subst kept.
       apply (f_equal reverse) in Hlast. rewrite reverse_involutive in Hlast.
       apply drop_empty_nil in Hlast.
       rewrite existsb_reverse in Hlast. congruence. }
  destruct (head kept) as [first|] eqn:Hhead.
  2: { apply head_None in Hhead. by rewrite Hhead in Hlast. }
  exists before, after, first, last_line.
  split; [by rewrite <-Hafter|]. split; [done|].
  split.
  - apply (drop_empty_head lines). rewrite Hafter.
    apply head_app_Some. by left.
  - split; [done|]. apply (drop_empty_head (reverse (drop_empty lines))).
    by rewrite <-last_reverse.
Qed.

Lemma get_text_as_comment_spec text :
  get_text_as_comment text =
    if has_nonempty_line text
    then Ok (comment_block (trim_empty_lines (split_LF text)))
    else Raise (IndexError "list index out of range").
Proof.
  unfold get_text_as_comment, has_nonempty_line.
  rewrite pop_leading_empty_spec.
  destruct (existsb truthy (split_LF text)) eqn:Hsome; [|done].
  simpl. rewrite pop_trailing_empty_spec, existsb_drop_empty, Hsome.
  done.
Qed.
End text_as_comment.

(** ** The script header *)

Section header.
Implicit Types (s : AmberfySettings) (text : string).
Local Arguments String.concat : simpl never.

Lemma append_if (b : bool) (result section : string) :
  (if b then result +:+ section else result)
  = result +:+ (if b then section else "").
Proof. destruct b; [done|by rewrite append_nil_r]. Qed.

Lemma append_if_3 (b : bool) (result x y z : string) :
  (if b then ((result +:+ x) +:+ y) +:+ z else result)
  = result +:+ (if b then x +:+ y +:+ z else "").
Proof. destruct b; [by normalize_strings|by rewrite append_nil_r]. Qed.

Lemma pretty_fence_timeout : pretty AMBER_FENCE_TIMEOUT_MS = "60000".
Proof. by vm_compute. Qed.

Lemma concat_empty_nil : String.concat "" [] = "".
Proof. done. Qed.

(** The header is its sections, in their order. *)
Lemma header_by_sections s :
  get_amber_script_header s = assemble (header_sections s).
Proof.
  unfold get_amber_script_header, assemble, header_sections.
  rewrite pretty_fence_timeout.
  destruct (truthy_opt (copyright_header_text s));
    [destruct (get_text_as_comment (default "" (copyright_header_text s)))|];
    simpl; [| done |];
    (destruct (truthy_opt (comment_text s));
     [destruct (get_text_as_comment (default "" (comment_text s)))|];
     simpl; [| done |]);
    f_equal;
    rewrite !concat_empty_cons, concat_empty_nil;
    rewrite (append_if (add_generated_comment s)),
      (append_if (add_graphics_fuzz_comment s)),
      (append_if (truthy_opt (short_description s))),
      (append_if_3 (truthy_list (spirv_opt_args s))),
      (append_if (negb (use_default_fence_timeout s)));
    by normalize_strings.
Qed.

(** A text that is not empty and has only empty lines stops the header. *)
Lemma header_blank_text s text :
  truthy text = true →
  has_nonempty_line text = false →
  copyright_header_text s = Some text ∨ comment_text s = Some text →
  get_amber_script_header s = Raise (IndexError "list index out of range").
Proof.
  intros Htext Hblank Hfield.
  rewrite header_by_sections. unfold assemble, header_sections.
  destruct Hfield as [Hfield|Hfield].
  - rewrite Hfield.
    change (truthy_opt (Some text)) with (truthy text).
    change (default "" (Some text)) with text.
    by rewrite Htext, get_text_as_comment_spec, Hblank.
  - rewrite Hfield.
    change (truthy_opt (Some text)) with (truthy text).
    change (default "" (Some text)) with text.
    rewrite Htext, (get_text_as_comment_spec text), Hblank.
    destruct (truthy_opt (copyright_header_text s)); [|done].
    rewrite get_text_as_comment_spec.
    by destruct (has_nonempty_line (default "" (copyright_header_text s))).
Qed.
End header.

(** C6. The header is the concatenation of eight sections in a fixed
    order. When two configurations differ in one field only, every section
    but the one that the field controls is the same text at the same
    position; [extra_commands] controls no section of the header. *)
Theorem header_order_stable (f : settings_field) (s s' : AmberfySettings) :
  differ_only_in f s s' →
  get_amber_script_header s = assemble (header_sections s)
  ∧ get_amber_script_header s' = assemble (header_sections s')
  ∧ length (header_sections s) = length (header_sections s')
  ∧ ∀ i, section_of f ≠ Some i → header_sections s !! i = header_sections s' !! i.
Proof.
  intros (Hc & Hg & Hz & Hd & Ht & Hf & He & Ha & Hh).
  split; [apply header_by_sections|]. split; [apply header_by_sections|].
  split; [done|]. intros i Hi.
  destruct f; unfold header_sections;
    do 8 (destruct i as [|i];
          [simpl in Hi |- *; try done;
           try rewrite (Hc ltac:(discriminate));
           try rewrite (Hg ltac:(discriminate));
           try rewrite (Hz ltac:(discriminate));
           try rewrite (Hd ltac:(discriminate));
           try rewrite (Ht ltac:(discriminate));
           try rewrite (Hf ltac:(discriminate));
           try rewrite (Ha ltac:(discriminate));
           try rewrite (Hh ltac:(discriminate));
           done |]);
    done.
Qed.

Lemma header_order_stable_witness :
  get_amber_script_header (with_generated_comment false)
  = assemble (header_sections (with_generated_comment false))
  ∧ get_amber_script_header (with_generated_comment true)
    = assemble (header_sections (with_generated_comment true))
  ∧ length (header_sections (with_generated_comment false))
    = length (header_sections (with_generated_comment true))
  ∧ ∀ i, section_of AddGeneratedComment ≠ Some i →
      header_sections (with_generated_comment false) !! i
      = header_sections (with_generated_comment true) !! i.
Proof.
  apply (header_order_stable AddGeneratedComment
           (with_generated_comment false) (with_generated_comment true)).
  repeat split; intros Hf; first [reflexivity | by destruct Hf].
Defined.

(** C9, as amended. [get_text_as_comment] needs a line that is not empty.
    With one, it returns the comment block of the lines between the first
    and the last line that are not empty: empty lines before and after are
    stripped. With none (the empty string, or line feeds only) the stripping
    loop raises [IndexError]. The header raises with it when the copyright
    text or the comment text is such a text and is not the empty string. The
    empty string is a false value: its section is skipped, and the header
    is what it is with that field [None]. *)
Theorem text_as_comment_needs_a_line (text : string) :
  (has_nonempty_line text = true →
     ∃ before after first last_line kept,
       split_LF text = (replicate before "" ++ kept ++ replicate after "")%list
       ∧ head kept = Some first ∧ first ≠ ""
       ∧ last kept = Some last_line ∧ last_line ≠ ""
       ∧ get_text_as_comment text = Ok (comment_block kept))
  ∧ (has_nonempty_line text = false →
       get_text_as_comment text = Raise (IndexError "list index out of range")
       ∧ ∀ s, text ≠ "" →
           copyright_header_text s = Some text ∨ comment_text s = Some text →
           get_amber_script_header s = Raise (IndexError "list index out of range"))
  ∧ (∀ copyright generated graphics_fuzz description comment fence extra opt_args opt_hash,
       get_amber_script_header
         (MkAmberfySettings (Some "") generated graphics_fuzz description comment
            fence extra opt_args opt_hash)
       = get_amber_script_header
           (MkAmberfySettings None generated graphics_fuzz description comment
              fence extra opt_args opt_hash)
       ∧ get_amber_script_header
           (MkAmberfySettings copyright generated graphics_fuzz description (Some "")
              fence extra opt_args opt_hash)
         = get_amber_script_header
             (MkAmberfySettings copyright generated graphics_fuzz description None
                fence extra opt_args opt_hash)).
Proof.
  split; [|split; [|done]].
  - intros Hsome.
    destruct (trim_empty_lines_spec (split_LF text) Hsome)
      as (before & after & first & last_line & Hlines & Hfirst & ? & Hlast & ?).
    exists before, after, first, last_line, (trim_empty_lines (split_LF text)).
    repeat (split; [done|]).
    by rewrite get_text_as_comment_spec, Hsome.
  - intros Hnone. split; [by rewrite get_text_as_comment_spec, Hnone|].
    intros s Htext. apply header_blank_text; [|done].
    by destruct text.
Qed.

Lemma text_as_comment_needs_a_line_witness :
  (∃ before after first last_line kept,
     split_LF (LF +:+ "Copyright" +:+ LF +:+ LF)
     = (replicate before "" ++ kept ++ replicate after "")%list
     ∧ head kept = Some first ∧ first ≠ ""
     ∧ last kept = Some last_line ∧ last_line ≠ ""
     ∧ get_text_as_comment (LF +:+ "Copyright" +:+ LF +:+ LF) = Ok (comment_block kept))
  ∧ get_text_as_comment (LF +:+ LF) = Raise (IndexError "list index out of range")
  ∧ get_amber_script_header (with_copyright (LF +:+ LF))
    = Raise (IndexError "list index out of range")
  ∧ get_amber_script_header (with_comment (LF +:+ LF))
    = Raise (IndexError "list index out of range")
  ∧ get_amber_script_header (with_copyright "") = get_amber_script_header default_settings
  ∧ get_amber_script_header
      (MkAmberfySettings (Some "") false false None (Some LF) false None None None)
    = get_amber_script_header
        (MkAmberfySettings None false false None (Some LF) false None None None).
Proof.
  split.
  - apply (text_as_comment_needs_a_line (LF +:+ "Copyright" +:+ LF +:+ LF)).
    reflexivity.
  - destruct (text_as_comment_needs_a_line (LF +:+ LF)) as (_ & Hnone & Hempty).
    destruct (Hnone eq_refl) as [Hraise Hheader].
    split; [exact Hraise|].
    split; [apply Hheader; [discriminate|by left]|].
    split; [apply Hheader; [discriminate|by right]|].
    split.
    + exact (proj1 (Hempty None false false None None false None None None)).
    + exact (proj1 (Hempty None false false None (Some LF) false None None None)).
Defined.

(** C9, as stated, fails for the empty string: it has only an empty line,
    and [get_text_as_comment] raises on it, yet the header with this
    copyright text or comment text is returned. *)
Lemma empty_text_header_counterexample :
  has_nonempty_line "" = false
  ∧ get_text_as_comment "" = Raise (IndexError "list index out of range")
  ∧ get_amber_script_header (with_copyright "")
    = Ok ("#!amber" +:+ LF +:+ LF +:+ "SET ENGINE_DATA fence_timeout_ms 60000" +:+ LF)
  ∧ get_amber_script_header (with_comment "")
    = Ok ("#!amber" +:+ LF +:+ LF +:+ "SET ENGINE_DATA fence_timeout_ms 60000" +:+ LF).
Proof. by vm_compute. Qed.

(** ** The graphics pipeline assembler *)

Section graphics.
Implicit Types (jobs others : list GraphicsShaderJob) (first job : GraphicsShaderJob).
Local Arguments String.concat : simpl never.

(** The comparison loop adds one directive for each job after the first,
    each against the first. *)
Lemma compare_loop_from first others (k n : nat) (result : string) :
  (k + n ≤ length others)%nat →
  compare_loop (first :: others) (seq (S k) n) result =
    Ok (result +:+ String.concat ""
          (comparison_directives (first :: take n (drop k others)))).
Proof.
  revert k result. induction n as [|n IH]; intros k result Hn.
  - simpl. by rewrite append_nil_r.
  - destruct (lookup_lt_is_Some_2 others k) as [job Hjob]; [lia|].
    simpl seq. simpl compare_loop. unfold index. simpl lookup.
    rewrite Hjob, bind_Ok, IH by lia.
    rewrite (drop_S _ _ _ Hjob). simpl.
    rewrite concat_empty_cons. unfold expect_directive.
    by normalize_strings.
Qed.

Lemma compare_loop_range first others (result : string) :
  compare_loop (first :: others) (range 1 (length (first :: others))) result =
    Ok (result +:+ String.concat "" (comparison_directives (first :: others))).
Proof.
  unfold range. simpl length. rewrite Nat.sub_1_r. simpl Nat.pred.
  rewrite compare_loop_from by (simpl; lia).
  by rewrite drop_0, firstn_all.
Qed.
End graphics.

(** C1. For a graphics test with a reference job and a variant job, and a
    configuration whose header is returned, let [body] be the text after
    the parts of the two jobs, the reference first. The comparison loop
    adds to it exactly one directive, [EXPECT] of the reference's
    framebuffer, [RMSE_BUFFER] the variant's framebuffer, [TOLERANCE 7];
    the script is [body], this directive and the extra commands. *)
Theorem one_comparison_directive
    (reference_job variant_job : GraphicsShaderJob) (settings : AmberfySettings)
    (header body : string) :
  get_amber_script_header settings = Ok header →
  graphics_jobs_loop [reference_job; variant_job] header = Ok body →
  comparison_directives [reference_job; variant_job]
  = [ "EXPECT " +:+ name_prefix (graphics_base reference_job) +:+ "_framebuffer RMSE_BUFFER "
      +:+ name_prefix (graphics_base variant_job) +:+ "_framebuffer TOLERANCE 7" ]
  ∧ compare_loop [reference_job; variant_job] (range 1 (length [reference_job; variant_job])) body
    = Ok (body +:+ String.concat "" (comparison_directives [reference_job; variant_job]))
  ∧ graphics_shader_job_amber_test_to_amber_script
      (MkShaderJobBasedAmberTest (Some (OfGraphics reference_job)) (OfGraphics variant_job))
      settings
    = Ok (body
          +:+ "EXPECT " +:+ name_prefix (graphics_base reference_job)
          +:+ "_framebuffer RMSE_BUFFER "
          +:+ name_prefix (graphics_base variant_job) +:+ "_framebuffer TOLERANCE 7"
          +:+ (if truthy_opt (extra_commands settings)
               then default "" (extra_commands settings) else "")).
Proof.
  intros Hheader Hbody. split; [done|]. split; [apply compare_loop_range|].
  unfold graphics_shader_job_amber_test_to_amber_script.
  cbn [variant reference assert_isinstance_GraphicsShaderJob].
  rewrite !bind_Ok, Hheader, !bind_Ok, Hbody, bind_Ok, compare_loop_range, bind_Ok.
  f_equal. rewrite append_if.
  cbn [comparison_directives fmap list_fmap]. unfold expect_directive.
  cbn [String.concat]. by normalize_strings.
Qed.

Lemma one_comparison_directive_witness :
  ∃ body,
    graphics_jobs_loop [graphics_job "reference"; graphics_job "variant"]
      ("#!amber" +:+ LF +:+ LF +:+ "SET ENGINE_DATA fence_timeout_ms 60000" +:+ LF)
    = Ok body
    ∧ graphics_shader_job_amber_test_to_amber_script reference_and_variant default_settings
      = Ok (body
            +:+ "EXPECT reference_framebuffer RMSE_BUFFER variant_framebuffer TOLERANCE 7").
Proof.
  eexists. split; [reflexivity|].
  refine (eq_trans
            (proj2 (proj2 (one_comparison_directive
                             (graphics_job "reference") (graphics_job "variant")
                             default_settings _ _ eq_refl eq_refl)))
            _).
  reflexivity.
Defined.

(** * Further properties *)

(** ** The compute buffer emitter, its domain *)

Section comp_buff_domain.
Implicit Types (job : shader_job_json) (info : compute_info).
Implicit Types (fields : list ssbo_field) (ty token : string).

Lemma field_types_set_one (f0 : ssbo_field) fields :
  size (list_to_set (field_type <$> f0 :: fields) : gset string) = 1 →
  fields_of_type (field_type f0) (f0 :: fields).
Proof.
  intros Hsize. apply Forall_forall. intros f Hf.
  apply (size_singleton_inv _ _ _ Hsize);
    apply elem_of_list_to_set, list_elem_of_fmap; eauto using list_elem_of_here.
Qed.

(** Either a check fails, with an error that does not depend on
    [make_empty_buffer], or the block is well formed. *)
Lemma comp_buff_def_cases job :
  (∃ e, ∀ b : bool, amberscript_comp_buff_def job b = Raise e)
  ∨ (∃ info ty token,
       compute_block job info ∧ buffer_fields info ≠ []
       ∧ fields_of_type ty (buffer_fields info) ∧ ssbo_types !! ty = Some token).
Proof.
  destruct (dict_get job "$compute") as [[u|info]|] eqn:Hjob.
  - left. eexists. intros b.
    unfold amberscript_comp_buff_def, dict_contains, dict_item. by rewrite Hjob.
  - destruct (buffer_fields info) as [|f0 fields] eqn:Hfields.
    { left. eexists. intros b.
      unfold amberscript_comp_buff_def, dict_contains, dict_item.
      rewrite Hjob. simpl. by rewrite Hfields. }
    destruct (decide (size (list_to_set (field_type <$> f0 :: fields) : gset string) = 1))
      as [Hsize|Hsize].
    + apply field_types_set_one in Hsize as Hty.
      destruct (ssbo_types !! field_type f0) as [token|] eqn:Htoken.
      * right. exists info, (field_type f0), token. by rewrite Hfields.
      * left. eexists. intros b.
        rewrite (comp_buff_def_checked job info (field_type f0)), Htoken;
          [done..| |by rewrite Hfields]. by rewrite Hfields.
    + left. eexists. intros b.
      unfold amberscript_comp_buff_def, dict_contains, dict_item.
      rewrite Hjob. simpl. rewrite Hfields.
      rewrite (bool_decide_eq_true_2 (0 < _)%nat) by (simpl; lia).
      by rewrite bool_decide_eq_false_2.
  - left. eexists. intros b.
    unfold amberscript_comp_buff_def, dict_contains, dict_item. by rewrite Hjob.
Qed.
End comp_buff_domain.

(** X1. A job without the key ["$compute"]: [amberscript_comp_buff_def]
    raises the [AssertionError] of its first check, with either value of
    [make_empty_buffer], while [amberscript_comp_num_groups_def], which has
    no check, raises the [KeyError] of the subscript. *)
Theorem compute_key_missing (job : shader_job_json) (make_empty_buffer : bool) :
  dict_get job "$compute" = None →
  amberscript_comp_buff_def job make_empty_buffer
  = Raise (AssertionError "Cannot find '$compute' key in JSON file")
  ∧ amberscript_comp_num_groups_def job = Raise (KeyError "$compute").
Proof.
  intros Hjob.
  unfold amberscript_comp_buff_def, amberscript_comp_num_groups_def,
    dict_contains, dict_item.
  by rewrite Hjob.
Qed.

Lemma compute_key_missing_witness :
  amberscript_comp_buff_def uniforms_only_job true
  = Raise (AssertionError "Cannot find '$compute' key in JSON file")
  ∧ amberscript_comp_num_groups_def uniforms_only_job = Raise (KeyError "$compute").
Proof. apply (compute_key_missing uniforms_only_job true). reflexivity. Defined.

(** X2. For a block that passes the checks, with fields of the type [ty]:
    when [ty] is one of the nine names of the table [ssbo_types], the
    literal declaration carries the token of the table and lists the data
    of the fields in their order; with any other name the function raises
    [ValueError], with either value of [make_empty_buffer]. *)
Theorem ssbo_type_tokens (job : shader_job_json) (info : compute_info) (ty : string) :
  compute_block job info →
  buffer_fields info ≠ [] →
  fields_of_type ty (buffer_fields info) →
  (∀ token, (ty, token) ∈ ssbo_types_items →
     amberscript_comp_buff_def job false
     = Ok ("BUFFER {} DATA_TYPE " +:+ token +:+ " DATA" +:+ LF
           +:+ " " +:+ join " " (str <$> concat (field_data <$> buffer_fields info)) +:+ LF
           +:+ "END" +:+ LF))
  ∧ (ty ∉ ssbo_types_items.*1 →
     ∀ make_empty_buffer,
       amberscript_comp_buff_def job make_empty_buffer
       = Raise (ValueError ("Unsupported SSBO datum type: " +:+ ty))).
Proof.
  intros Hjob Hne Hty. split.
  - intros token Hin.
    rewrite (comp_buff_def_checked job info ty) by done.
    unfold ssbo_types. erewrite elem_of_list_to_map_1; [done| |done].
    apply (bool_decide_unpack _). by vm_compute.
  - intros Hout b.
    rewrite (comp_buff_def_checked job info ty) by done.
    unfold ssbo_types. by rewrite (not_elem_of_list_to_map_1 _ _ Hout).
Qed.

Lemma ssbo_type_tokens_witness :
  amberscript_comp_buff_def vec2_job false
  = Ok ("BUFFER {} DATA_TYPE vec2<float> DATA" +:+ LF
        +:+ " 1.0 2.0 3.0 4.0" +:+ LF +:+ "END" +:+ LF)
  ∧ amberscript_comp_buff_def double_job true
    = Raise (ValueError "Unsupported SSBO datum type: double").
Proof.
  split.
  - refine (proj1 (ssbo_type_tokens vec2_job
                     (ComputeInfo [LInt 1]
                        [SsboField "vec2" [LFloat "1.0"; LFloat "2.0"];
                         SsboField "vec2" [LFloat "3.0"; LFloat "4.0"]])
                     "vec2" eq_refl _ _) "vec2<float>" _).
    + discriminate.
    + repeat constructor.
    + apply (bool_decide_unpack _). by vm_compute.
  - refine (proj2 (ssbo_type_tokens double_job
                     (ComputeInfo [LInt 1] [SsboField "double" [LFloat "1.0"]])
                     "double" eq_refl _ _) _ true).
    + discriminate.
    + repeat constructor.
    + apply (bool_decide_unpack _). by vm_compute.
Defined.

(** X3. [amberscript_comp_buff_def] without [make_empty_buffer] returns a
    text exactly for the jobs that have a compute block with at least one
    field, all the fields of one type, this type in the table; the text is
    then the literal declaration. *)
Theorem literal_buffer_domain (job : shader_job_json) (text : string) :
  amberscript_comp_buff_def job false = Ok text ↔
  ∃ info ty token,
    compute_block job info
    ∧ buffer_fields info ≠ []
    ∧ fields_of_type ty (buffer_fields info)
    ∧ ssbo_types !! ty = Some token
    ∧ text = "BUFFER {} DATA_TYPE " +:+ token +:+ " DATA" +:+ LF
             +:+ " " +:+ join " " (str <$> concat (field_data <$> buffer_fields info)) +:+ LF
             +:+ "END" +:+ LF.
Proof.
  split.
  - intros Hok. destruct (comp_buff_def_cases job) as [[e He]|(info & ty & token & H)].
    { by rewrite He in Hok. }
    destruct H as (Hjob & Hne & Hty & Htoken).
    exists info, ty, token. repeat (split; [done|]).
    rewrite (comp_buff_def_checked job info ty), Htoken in Hok by done.
    by injection Hok as <-.
  - intros (info & ty & token & Hjob & Hne & Hty & Htoken & ->).
    by rewrite (comp_buff_def_checked job info ty), Htoken.
Qed.

Lemma literal_buffer_domain_witness :
  amberscript_comp_buff_def vec2_job false
  = Ok ("BUFFER {} DATA_TYPE vec2<float> DATA" +:+ LF
        +:+ " 1.0 2.0 3.0 4.0" +:+ LF +:+ "END" +:+ LF).
Proof.
  apply (literal_buffer_domain vec2_job).
  exists (ComputeInfo [LInt 1]
            [SsboField "vec2" [LFloat "1.0"; LFloat "2.0"];
             SsboField "vec2" [LFloat "3.0"; LFloat "4.0"]]),
    "vec2", "vec2<float>".
  split; [reflexivity|]. split; [discriminate|].
  split; [repeat constructor|]. split; reflexivity.
Defined.



(** ** The uniform emitter, bindings *)

Section uniform_bindings.
Implicit Types (prefix : string) (uniforms : shader_job_json).
Implicit Types (entries : list (string * uniform_entry)).
Local Arguments String.concat : simpl never.

Lemma mapM_uniform_binding prefix entries :
  mapM (uniform_binding prefix) ((λ e, (e.1, Uniform e.2)) <$> entries)
  = Ok ((λ e, "  BIND BUFFER " +:+ prefix +:+ "_" +:+ e.1
              +:+ " AS uniform DESCRIPTOR_SET 0 BINDING " +:+ str (binding e.2) +:+ LF)
          <$> entries).
Proof.
  induction entries as [|[name u] entries IH]; [done|].
  rewrite !fmap_cons. simpl mapM. rewrite IH. done.
Qed.

Lemma mapM_app {A B} (f : A → outcome B) (l1 l2 : list A) :
  mapM f (l1 ++ l2) = k1 ← mapM f l1; k2 ← mapM f l2; Ok (k1 ++ k2)%list.
Proof.
  induction l1 as [|x l1 IH]; simpl.
  - by destruct (mapM f l2).
  - destruct (f x); simpl; [|done]. rewrite IH.
    destruct (mapM f l1); simpl; [|done]. by destruct (mapM f l2).
Qed.

Lemma concat_empty_app (l1 l2 : list string) :
  String.concat "" (l1 ++ l2) = String.concat "" l1 +:+ String.concat "" l2.
Proof.
  induction l1 as [|x l1 IH]; [done|].
  rewrite <-app_comm_cons, !concat_empty_cons, IH. by normalize_strings.
Qed.

Lemma without_compute_key_app uniforms (uniforms' : shader_job_json) :
  without_compute_key (uniforms ++ uniforms')
  = (without_compute_key uniforms ++ without_compute_key uniforms')%list.
Proof. apply filter_app. Qed.
End uniform_bindings.

(** X5. [amberscript_uniform_buffer_bind] looks at no setter: on a map
    whose entries, the reserved key apart, are uniform entries, it always
    returns, one directive per entry in the order of the map, at descriptor
    set 0 and with the binding of the entry as it is. *)
Theorem uniform_bindings_total
    (uniforms : shader_job_json) (prefix : string)
    (entries : list (string * uniform_entry)) :
  without_compute_key uniforms = (λ e, (e.1, Uniform e.2)) <$> entries →
  amberscript_uniform_buffer_bind uniforms prefix
  = Ok (String.concat ""
          ((λ e, "  BIND BUFFER " +:+ prefix +:+ "_" +:+ e.1
                 +:+ " AS uniform DESCRIPTOR_SET 0 BINDING " +:+ str (binding e.2) +:+ LF)
             <$> entries)).
Proof.
  intros Hentries. unfold amberscript_uniform_buffer_bind.
  by rewrite uniform_buffer_bind_loop_mapM, Hentries, mapM_uniform_binding.
Qed.

Lemma uniform_bindings_total_witness :
  amberscript_uniform_buffer_bind
    [("time", Uniform (UniformEntry "glUniform1d" [LFloat "0.5"] (LInt 7)));
     ("$compute", Uniform (UniformEntry "" [] LNull));
     ("res", Uniform (UniformEntry "glUniform2f" [LFloat "1.0"; LFloat "2.0"] (LInt 7)))]
    "variant"
  = Ok ("  BIND BUFFER variant_time AS uniform DESCRIPTOR_SET 0 BINDING 7" +:+ LF
        +:+ "  BIND BUFFER variant_res AS uniform DESCRIPTOR_SET 0 BINDING 7" +:+ LF).
Proof.
  apply (uniform_bindings_total _ "variant"
           [("time", UniformEntry "glUniform1d" [LFloat "0.5"] (LInt 7));
            ("res", UniformEntry "glUniform2f" [LFloat "1.0"; LFloat "2.0"] (LInt 7))]).
  reflexivity.
Defined.

(** X7. The bindings of two maps put one after the other are the bindings
    of the first followed by those of the second; when one of the two
    calls raises, so does the call on the whole, with the error of the
    first that fails. *)
Theorem uniform_bindings_app (uniforms uniforms' : shader_job_json) (prefix : string) :
  amberscript_uniform_buffer_bind (uniforms ++ uniforms') prefix
  = (first ← amberscript_uniform_buffer_bind uniforms prefix;
     second ← amberscript_uniform_buffer_bind uniforms' prefix;
     Ok (first +:+ second)).
Proof.
  unfold amberscript_uniform_buffer_bind.
  rewrite !uniform_buffer_bind_loop_mapM, without_compute_key_app, mapM_app.
  destruct (mapM _ (without_compute_key uniforms)) as [k1|e]; simpl; [|done].
  destruct (mapM _ (without_compute_key uniforms')) as [k2|e]; simpl; [|done].
  by rewrite concat_empty_app.
Qed.

(** ** Text as a comment, the lines of the block *)

Section comment_lines.
Implicit Types (s text line : string) (lines : list string) (c : ascii).

Lemma rstrip_idemp s : rstrip (rstrip s) = rstrip s.
Proof.
  induction s as [|c s IH]; [done|]. simpl.
  destruct (rstrip s) as [|k kept] eqn:Hs.
  - destruct (isspace c) eqn:Hc; simpl; [done|]. by rewrite Hc.
  - change (rstrip (String c (String k kept))) with
      (match rstrip (String k kept) with
       | "" => if isspace c then "" else String c ""
       | kept' => String c kept'
       end).
    by rewrite IH.
Qed.

Lemma rstrip_keeps_first c s : isspace c = false → ∃ rest, rstrip (String c s) = String c rest.
Proof.
  intros Hc. simpl. destruct (rstrip s); rewrite ?Hc; by eexists.
Qed.

Lemma LF_free_rstrip s : LF_free s = true → LF_free (rstrip s) = true.
Proof.
  induction s as [|c s IH]; [done|]. simpl.
  intros [Hc Hs]%andb_true_iff. specialize (IH Hs).
  destruct (rstrip s) as [|k kept].
  - destruct (isspace c); [done|]. simpl. by rewrite Hc.
  - simpl in *. by rewrite Hc, IH.
Qed.

Lemma LF_free_app s1 s2 : LF_free (s1 +:+ s2) = LF_free s1 && LF_free s2.
Proof.
  induction s1 as [|c s1 IH]; [done|].
  rewrite append_cons. simpl. by rewrite IH, andb_assoc.
Qed.

Lemma split_LF_nonempty text : split_LF text ≠ [].
Proof.
  destruct text as [|c text]; [done|]. simpl.
  destruct (Ascii.eqb c "010"); [done|]. by destruct (split_LF text).
Qed.

Lemma split_LF_lines text : Forall (λ line, LF_free line = true) (split_LF text).
Proof.
  induction text as [|c text IH]; [by repeat constructor|]. simpl.
  destruct (Ascii.eqb c "010") eqn:Hc; [by constructor|].
  destruct (split_LF text) as [|line lines]; [by repeat constructor; simpl; rewrite Hc|].
  inversion IH as [|?? Hline Hlines]; subst.
  constructor; [|done]. simpl. by rewrite Hc.
Qed.

Lemma split_LF_line line : LF_free line = true → split_LF line = [line].
Proof.
  induction line as [|c line IH]; [done|]. simpl.
  intros [Hc Hline]%andb_true_iff. apply negb_true_iff in Hc.
  by rewrite Hc, IH.
Qed.

Lemma split_LF_app line text :
  LF_free line = true → split_LF (line +:+ LF +:+ text) = line :: split_LF text.
Proof.
  induction line as [|c line IH]; [done|].
  intros [Hc Hline]%andb_true_iff. apply negb_true_iff in Hc.
  rewrite append_cons. simpl. by rewrite Hc, IH.
Qed.

(** Splitting what was joined gives the lines back. *)
Lemma split_LF_join lines :
  lines ≠ [] → Forall (λ line, LF_free line = true) lines →
  split_LF (join LF lines) = lines.
Proof.
  intros Hne Hlines. induction Hlines as [|line lines Hline Hlines IH]; [done|].
  destruct lines as [|line' lines].
  - by apply split_LF_line.
  - change (join LF (line :: line' :: lines))
      with (line +:+ LF +:+ join LF (line' :: lines)).
    rewrite split_LF_app by done. f_equal. by apply IH.
Qed.

Lemma split_LF_snoc_LF text : split_LF (text +:+ LF) = (split_LF text ++ [""])%list.
Proof.
  induction text as [|c text IH]; [done|].
  rewrite append_cons. simpl. rewrite IH.
  destruct (Ascii.eqb c "010"); [done|].
  pose proof (split_LF_nonempty text). by destruct (split_LF text).
Qed.

Lemma drop_empty_app lines (lines' : list string) :
  existsb truthy lines = true →
  drop_empty (lines ++ lines') = (drop_empty lines ++ lines')%list.
Proof.
  induction lines as [|line lines IH]; [done|]. simpl.
  destruct (truthy line); [done|]. apply IH.
Qed.

Lemma trim_empty_lines_cons_empty lines :
  trim_empty_lines ("" :: lines) = trim_empty_lines lines.
Proof. done. Qed.

Lemma trim_empty_lines_snoc_empty lines :
  existsb truthy lines = true →
  trim_empty_lines (lines ++ [""]) = trim_empty_lines lines.
Proof.
  intros Hsome. unfold trim_empty_lines.
  by rewrite drop_empty_app, reverse_snoc.
Qed.

Lemma comment_line_shape line :
  LF_free line = true →
  is_comment_line (comment_line line)
  ∧ no_trailing_space (comment_line line)
  ∧ LF_free (comment_line line) = true.
Proof.
  intros Hline. unfold comment_line, no_trailing_space.
  split; [by apply rstrip_keeps_first|]. split; [apply rstrip_idemp|].
  apply LF_free_rstrip. by rewrite LF_free_app.
Qed.

Lemma trim_empty_lines_sub lines :
  existsb truthy lines = true →
  trim_empty_lines lines ≠ []
  ∧ (length (trim_empty_lines lines) ≤ length lines)%nat
  ∧ Forall (λ line, line ∈ lines) (trim_empty_lines lines).
Proof.
  intros Hsome.
  destruct (trim_empty_lines_spec lines Hsome)
    as (before & after & first & last_line & Hlines & Hfirst & _).
  split; [intros Hnil; by rewrite Hnil in Hfirst|].
  split.
  - rewrite Hlines at 2. rewrite !length_app. lia.
  - apply Forall_forall. intros line Hin. rewrite Hlines.
    apply elem_of_app. right. apply elem_of_app. by left.
Qed.
End comment_lines.

(** X8. The text that [get_text_as_comment] returns is a block of
    comments: split at the line feeds, it has one line for each line of the
    input between the first and the last that are not empty, each beginning
    with [#] and without white space at its end; it has at least one line
    and no more lines than the input. *)
Theorem comment_block_lines (text block : string) :
  get_text_as_comment text = Ok block →
  split_LF block = comment_line <$> trim_empty_lines (split_LF text)
  ∧ Forall (λ line, is_comment_line line ∧ no_trailing_space line) (split_LF block)
  ∧ (0 < length (split_LF block) ≤ length (split_LF text))%nat.
Proof.
  rewrite get_text_as_comment_spec. unfold has_nonempty_line.
  destruct (existsb truthy (split_LF text)) eqn:Hsome; [|done].
  intros [= <-].
  destruct (trim_empty_lines_sub _ Hsome) as (Hne & Hlen & Hsub).
  assert (Forall (λ line, LF_free line = true) (trim_empty_lines (split_LF text)))
    as Hfree.
  { eapply Forall_impl; [done|]. intros line Hin. simpl in Hin.
    by eapply Forall_forall in Hin; [|apply split_LF_lines]. }
  assert (split_LF (comment_block (trim_empty_lines (split_LF text)))
          = comment_line <$> trim_empty_lines (split_LF text)) as Hsplit.
  { apply split_LF_join.
    - by destruct (trim_empty_lines (split_LF text)).
    - apply Forall_fmap. eapply Forall_impl; [done|].
      intros line Hline. by apply comment_line_shape. }
  rewrite Hsplit. split; [done|]. split.
  - apply Forall_fmap. eapply Forall_impl; [done|].
    intros line Hline. simpl. split; by apply comment_line_shape.
  - rewrite length_fmap. split; [|done].
    destruct (trim_empty_lines (split_LF text)); [done|simpl; lia].
Qed.

Lemma comment_block_lines_witness :
  split_LF ("# Licensed under" +:+ LF +:+ "#" +:+ LF +:+ "# the Apache License")
  = comment_line <$> trim_empty_lines
      (split_LF (LF +:+ "Licensed under  " +:+ LF +:+ LF +:+ "the Apache License" +:+ LF))
  ∧ Forall (λ line, is_comment_line line ∧ no_trailing_space line)
      (split_LF ("# Licensed under" +:+ LF +:+ "#" +:+ LF +:+ "# the Apache License"))
  ∧ (0 < length (split_LF ("# Licensed under" +:+ LF +:+ "#" +:+ LF
                            +:+ "# the Apache License"))
     ≤ length (split_LF (LF +:+ "Licensed under  " +:+ LF +:+ LF
                          +:+ "the Apache License" +:+ LF)))%nat.
Proof.
  apply (comment_block_lines
           (LF +:+ "Licensed under  " +:+ LF +:+ LF +:+ "the Apache License" +:+ LF)).
  reflexivity.
Defined.

(** X9. An empty line more at the start or at the end of the text makes
    no difference to [get_text_as_comment], neither to the block it
    returns nor to its failure. *)
Theorem comment_ignores_blank_edges (text : string) :
  get_text_as_comment (LF +:+ text) = get_text_as_comment text
  ∧ get_text_as_comment (text +:+ LF) = get_text_as_comment text.
Proof.
  rewrite !get_text_as_comment_spec. unfold has_nonempty_line. split.
  - change (split_LF (LF +:+ text)) with ("" :: split_LF text).
    by rewrite trim_empty_lines_cons_empty.
  - rewrite split_LF_snoc_LF, existsb_app. simpl. rewrite orb_false_r.
    destruct (existsb truthy (split_LF text)) eqn:Hsome; [|done].
    by rewrite trim_empty_lines_snoc_empty.
Qed.

(** ** The header and the shader declarations, when they return *)

Section header_domain.
Implicit Types (s : AmberfySettings) (shader : Shader) (name text : string).
Local Arguments String.concat : simpl never.

Lemma text_section_cases (o : option string) (wrap : string → string) :
  (if truthy_opt o then wrap <$> get_text_as_comment (default "" o) else Ok "")
  = if blank_text o then Raise (IndexError "list index out of range")
    else Ok (if truthy_opt o
             then wrap (comment_block (trim_empty_lines (split_LF (default "" o))))
             else "").
Proof.
  unfold blank_text. destruct (truthy_opt o); [|done].
  rewrite get_text_as_comment_spec. by destruct (has_nonempty_line _).
Qed.

Lemma concat_empty_snoc (l : list string) (x : string) :
  String.concat "" (l ++ [x]) = String.concat "" l +:+ x.
Proof. rewrite concat_empty_app, concat_empty_cons. by normalize_strings. Qed.

Lemma shader_def_cases shader name :
  get_amber_script_shader_def shader name =
    if blank_text (shader_source shader)
    then Raise (IndexError "list index out of range")
    else Ok (source_comment shader name +:+ shader_declaration shader name).
Proof.
  unfold get_amber_script_shader_def, blank_text, source_comment, shader_declaration.
  destruct (truthy_opt (shader_source shader)); simpl.
  - rewrite get_text_as_comment_spec.
    destruct (has_nonempty_line _); simpl; [|done].
    f_equal. destruct (truthy_opt (shader_spirv_asm shader)); by normalize_strings.
  - f_equal. destruct (truthy_opt (shader_spirv_asm shader)); by normalize_strings.
Qed.
End header_domain.

Section header_returns.
Local Arguments String.concat : simpl never.

(** X10. [get_amber_script_header] fails only through a copyright text or
    a comment text that is true and has no line that is not empty, then
    with the [IndexError] of [get_text_as_comment]. Otherwise it returns,
    and the header begins with the line [#!amber]. *)
Theorem header_domain (s : AmberfySettings) :
  if blank_text (copyright_header_text s) || blank_text (comment_text s)
  then get_amber_script_header s = Raise (IndexError "list index out of range")
  else ∃ rest, get_amber_script_header s = Ok ("#!amber" +:+ LF +:+ rest).
Proof.
  rewrite header_by_sections. unfold assemble, header_sections.
  rewrite !text_section_cases.
  destruct (blank_text (copyright_header_text s)); [done|].
  destruct (blank_text (comment_text s)); [done|].
  simpl. eexists. by rewrite concat_empty_cons.
Qed.

Lemma ends_with_app_r (x y suffix : string) :
  ends_with y suffix → ends_with (x +:+ y) suffix.
Proof. intros [before ->]. exists (x +:+ before). by normalize_strings. Qed.

(** X11. Unless the configuration asks for the default fence timeout, a
    header that is returned ends with an empty line followed by the
    directive that sets the timeout to 60000 ms. *)
Theorem header_ends_with_fence_timeout (s : AmberfySettings) (header : string) :
  use_default_fence_timeout s = false →
  get_amber_script_header s = Ok header →
  ends_with header (LF +:+ LF +:+ "SET ENGINE_DATA fence_timeout_ms 60000" +:+ LF).
Proof.
  intros Hflag. rewrite header_by_sections. unfold assemble, header_sections.
  rewrite !text_section_cases, Hflag.
  destruct (blank_text (copyright_header_text s)); [done|].
  destruct (blank_text (comment_text s)); [done|].
  simpl. intros [= <-].
  match goal with
  | |- ends_with (String.concat "" [?a; ?b; ?c; ?d; ?e; ?f; ?g; ?h]) _ =>
      assert (ends_with (String.concat "" [a; b; c; d; e; f; g]) LF)
        as [before Hbefore];
      [|exists before;
        change [a; b; c; d; e; f; g; h] with ([a; b; c; d; e; f; g] ++ [h])%list;
        rewrite concat_empty_snoc, Hbefore; by normalize_strings]
  end.
  rewrite !concat_empty_cons, concat_empty_nil.
  repeat match goal with
         | |- context [if ?c then _ else _] => destruct c
         end;
    normalize_strings; repeat apply ends_with_app_r; by exists "".
Qed.

Lemma header_ends_with_fence_timeout_witness :
  ends_with
    ("#!amber" +:+ LF +:+ LF +:+ "# Copyright 2019" +:+ LF +:+ LF +:+ LF
     +:+ "SET ENGINE_DATA fence_timeout_ms 60000" +:+ LF)
    (LF +:+ LF +:+ "SET ENGINE_DATA fence_timeout_ms 60000" +:+ LF).
Proof.
  apply (header_ends_with_fence_timeout (with_copyright "Copyright 2019")); reflexivity.
Defined.

End header_returns.

(** X12. [get_amber_script_shader_def] fails only on a source that is true
    and has no line that is not empty. Otherwise it returns the comment
    with the source, when the shader has one, followed by the declaration:
    the assembly between [SPIRV-ASM] and [END] when the shader has assembly
    text, [PASSTHROUGH] when the text is absent or empty. *)
Theorem shader_def_domain (shader : Shader) (name : string) :
  get_amber_script_shader_def shader name =
    if blank_text (shader_source shader)
    then Raise (IndexError "list index out of range")
    else
      Ok ((if truthy_opt (shader_source shader)
           then LF +:+ "# " +:+ name +:+ " is derived from the following GLSL:" +:+ LF
                  +:+ comment_block
                        (trim_empty_lines (split_LF (default "" (shader_source shader))))
           else "")
          +:+ (if truthy_opt (shader_spirv_asm shader)
               then LF +:+ "SHADER " +:+ ShaderType_value (shader_type shader) +:+ " "
                      +:+ name +:+ " SPIRV-ASM" +:+ LF
                      +:+ default "" (shader_spirv_asm shader) +:+ "END" +:+ LF
               else LF +:+ "SHADER " +:+ ShaderType_value (shader_type shader) +:+ " "
                      +:+ name +:+ " PASSTHROUGH" +:+ LF)).
Proof. apply shader_def_cases. Qed.

(** ** The graphics pipeline assembler, its parts and its errors *)

Section assemblers.
Implicit Types (job reference_job variant_job : GraphicsShaderJob).
Implicit Types (s : AmberfySettings) (acc : string).
Local Arguments String.concat : simpl never.

Lemma graphics_job_part_cases job :
  ∃ part,
    graphics_job_part job =
      if job_has_blank_source job then Raise (IndexError "list index out of range")
      else Ok part.
Proof.
  unfold graphics_job_part, graphics_job_body, job_has_blank_source.
  rewrite !shader_def_cases.
  destruct (blank_text (shader_source (vertex_shader job))); simpl;
    [exists EmptyString; reflexivity|].
  destruct (blank_text (shader_source (fragment_shader job))); simpl;
    [exists EmptyString; reflexivity|eexists; reflexivity].
Qed.

(** The body of the loop adds the part of the job to what it is given. *)
Lemma graphics_job_body_part job acc :
  graphics_job_body job acc = (λ part, acc +:+ part) <$> graphics_job_part job.
Proof.
  unfold graphics_job_part, graphics_job_body.
  destruct (get_amber_script_shader_def (vertex_shader job) _); simpl; [|done].
  destruct (get_amber_script_shader_def (fragment_shader job) _); simpl; [|done].
  f_equal. by normalize_strings.
Qed.

Lemma graphics_script_one variant_job s :
  graphics_shader_job_amber_test_to_amber_script (graphics_test None variant_job) s
  = (header ← get_amber_script_header s;
     part ← graphics_job_part variant_job;
     Ok (header +:+ part +:+ extra_text s)).
Proof.
  unfold graphics_shader_job_amber_test_to_amber_script, graphics_test, extra_text.
  simpl. destruct (get_amber_script_header s) as [header|e]; simpl; [|done].
  rewrite graphics_job_body_part.
  destruct (graphics_job_part variant_job) as [part|e]; simpl; [|done].
  f_equal. rewrite append_if. by normalize_strings.
Qed.

Lemma graphics_script_two reference_job variant_job s :
  graphics_shader_job_amber_test_to_amber_script
    (graphics_test (Some reference_job) variant_job) s
  = (header ← get_amber_script_header s;
     reference_part ← graphics_job_part reference_job;
     variant_part ← graphics_job_part variant_job;
     Ok (header +:+ reference_part +:+ variant_part
         +:+ "EXPECT " +:+ name_prefix (graphics_base reference_job)
         +:+ "_framebuffer RMSE_BUFFER "
         +:+ name_prefix (graphics_base variant_job) +:+ "_framebuffer TOLERANCE 7"
         +:+ extra_text s)).
Proof.
  unfold graphics_shader_job_amber_test_to_amber_script, graphics_test, extra_text.
  simpl. destruct (get_amber_script_header s) as [header|e]; simpl; [|done].
  rewrite graphics_job_body_part.
  destruct (graphics_job_part reference_job) as [reference_part|e]; simpl; [|done].
  rewrite graphics_job_body_part.
  destruct (graphics_job_part variant_job) as [variant_part|e]; simpl; [|done].
  f_equal. rewrite append_if. by normalize_strings.
Qed.
End assemblers.

(** X13. The script of a graphics test is its header, the part of each
    job and the extra commands. Without a reference there is no comparison
    directive; with a reference, the part of the variant is the same text
    as without, after the part of the reference and before the one
    directive. An error is that of the header or of the first part that
    fails. *)
Theorem graphics_script_parts
    (reference_job variant_job : GraphicsShaderJob) (s : AmberfySettings) :
  graphics_shader_job_amber_test_to_amber_script (graphics_test None variant_job) s
  = (header ← get_amber_script_header s;
     part ← graphics_job_part variant_job;
     Ok (header +:+ part +:+ extra_text s))
  ∧ graphics_shader_job_amber_test_to_amber_script
      (graphics_test (Some reference_job) variant_job) s
    = (header ← get_amber_script_header s;
       reference_part ← graphics_job_part reference_job;
       variant_part ← graphics_job_part variant_job;
       Ok (header +:+ reference_part +:+ variant_part
           +:+ "EXPECT " +:+ name_prefix (graphics_base reference_job)
           +:+ "_framebuffer RMSE_BUFFER "
           +:+ name_prefix (graphics_base variant_job) +:+ "_framebuffer TOLERANCE 7"
           +:+ extra_text s)).
Proof. split; [apply graphics_script_one|apply graphics_script_two]. Qed.

(** X14. The assertions on the kind of the jobs. The graphics assembler
    given a compute variant raises [AssertionError] whatever the
    configuration and the reference are, before the header is built. Given
    a graphics variant and a compute reference, it raises the error of the
    header when the header fails and [AssertionError] otherwise. *)
Theorem graphics_kind_assertions
    (compute_job : ComputeShaderJob) (variant_job : GraphicsShaderJob)
    (reference : option ShaderJob) (s : AmberfySettings) :
  graphics_shader_job_amber_test_to_amber_script
    (MkShaderJobBasedAmberTest reference (OfCompute compute_job)) s
  = Raise (AssertionError "")
  ∧ graphics_shader_job_amber_test_to_amber_script
      (MkShaderJobBasedAmberTest (Some (OfCompute compute_job)) (OfGraphics variant_job)) s
    = match get_amber_script_header s with
      | Ok _ => Raise (AssertionError "")
      | Raise e => Raise e
      end.
Proof.
  split; [done|].
  unfold graphics_shader_job_amber_test_to_amber_script. simpl.
  by destruct (get_amber_script_header s).
Qed.

(** X15. For graphics jobs, the assembler fails only on a text that stops
    [get_text_as_comment] (the copyright text, the comment text, the source
    of a shader of one of the jobs), then with [IndexError]; for every other
    test and configuration it returns a script. *)
Theorem graphics_script_domain
    (reference_job : option GraphicsShaderJob) (variant_job : GraphicsShaderJob)
    (s : AmberfySettings) :
  if blank_text (copyright_header_text s) || blank_text (comment_text s)
     || existsb job_has_blank_source (option_list reference_job ++ [variant_job])
  then graphics_shader_job_amber_test_to_amber_script
         (graphics_test reference_job variant_job) s
       = Raise (IndexError "list index out of range")
  else ∃ script,
         graphics_shader_job_amber_test_to_amber_script
           (graphics_test reference_job variant_job) s
         = Ok script.
Proof.
  pose proof (header_domain s) as Hheader.
  destruct (graphics_job_part_cases variant_job) as [variant_part Hvariant].
  destruct reference_job as [reference_job|]; simpl.
  - destruct (graphics_job_part_cases reference_job) as [reference_part Hreference].
    rewrite graphics_script_two, Hvariant, Hreference.
    destruct (blank_text (copyright_header_text s) || blank_text (comment_text s)).
    { by rewrite Hheader. }
    destruct Hheader as [rest ->]. simpl.
    destruct (job_has_blank_source reference_job); simpl; [done|].
    destruct (job_has_blank_source variant_job); simpl; [done|by eexists].
  - rewrite graphics_script_one, Hvariant.
    destruct (blank_text (copyright_header_text s) || blank_text (comment_text s)).
    { by rewrite Hheader. }
    destruct Hheader as [rest ->]. simpl.
    destruct (job_has_blank_source variant_job); simpl; [done|by eexists].
Qed.

(** ** What the compute functions read, and the optimizer comment *)

(** X16. [amberscript_comp_buff_def] and [amberscript_comp_num_groups_def]
    read the key ["$compute"] only: on two jobs that agree on this key
    (on its presence and on its value) each gives the same result, text or
    error, whatever the uniforms of the jobs are. *)
Theorem compute_functions_read_compute_key
    (job job' : shader_job_json) (make_empty_buffer : bool) :
  dict_get job "$compute" = dict_get job' "$compute" →
  amberscript_comp_buff_def job make_empty_buffer
  = amberscript_comp_buff_def job' make_empty_buffer
  ∧ amberscript_comp_num_groups_def job = amberscript_comp_num_groups_def job'.
Proof.
  intros Hsame.
  unfold amberscript_comp_buff_def, amberscript_comp_num_groups_def,
    dict_contains, dict_item.
  by rewrite Hsame.
Qed.

Lemma compute_functions_read_compute_key_witness :
  amberscript_comp_buff_def docstring_job true
  = amberscript_comp_buff_def (uniforms_only_job ++ docstring_job) true
  ∧ amberscript_comp_num_groups_def docstring_job
    = amberscript_comp_num_groups_def (uniforms_only_job ++ docstring_job).
Proof.
  apply (compute_functions_read_compute_key docstring_job
           (uniforms_only_job ++ docstring_job) true).
  reflexivity.
Defined.

Section optimizer_comment.
Implicit Types (lines : list string) (line : string).

Lemma join_cons line lines :
  lines ≠ [] → join LF (line :: lines) = line +:+ LF +:+ join LF lines.
Proof. by destruct lines. Qed.

Lemma join_app lines (lines' : list string) :
  lines ≠ [] → lines' ≠ [] →
  join LF (lines ++ lines') = join LF lines +:+ LF +:+ join LF lines'.
Proof.
  intros Hne Hne'. induction lines as [|line lines IH]; [done|].
  destruct lines as [|line' lines].
  - simpl app. by rewrite join_cons.
  - rewrite <-app_comm_cons, join_cons by done.
    rewrite IH by done. rewrite (join_cons line) by done.
    by normalize_strings.
Qed.
End optimizer_comment.

(** X17. For a list of optimizer arguments that is not empty, and
    arguments and a hash without a line feed, the comment of
    [get_spirv_opt_args_comment] has, line by line: the title, one line
    with each argument in quotes, in the order of the list, a line with the
    hash when there is one, and an empty line; the text ends with a line
    feed. *)
Theorem spirv_opt_args_comment_lines (args : list string) (hash : option string) :
  args ≠ [] →
  Forall (λ arg, LF_free arg = true) args →
  LF_free (default "" hash) = true →
  split_LF (get_spirv_opt_args_comment (Some args) hash)
  = (["# Optimized using spirv-opt with the following arguments:"]
     ++ ((λ arg, "# '" +:+ arg +:+ "'") <$> args)
     ++ (if truthy_opt hash then ["# spirv-opt commit hash: " +:+ default "" hash] else [])
     ++ [""; ""])%list.
Proof.
  intros Hne Hargs Hhash.
  set (title := "# Optimized using spirv-opt with the following arguments:").
  set (quoted := (λ arg, "# '" +:+ arg +:+ "'") <$> args).
  set (hash_line :=
         if truthy_opt hash then ["# spirv-opt commit hash: " +:+ default "" hash] else []).
  assert (quoted ≠ []) as Hquoted by (subst quoted; by destruct args).
  assert (get_spirv_opt_args_comment (Some args) hash
          = join LF ([title] ++ quoted ++ hash_line ++ [""; ""])) as ->.
  { unfold get_spirv_opt_args_comment.
    destruct args as [|arg args]; [done|]. simpl truthy_list. cbn [negb].
    change (default [] (Some (arg :: args))) with (arg :: args).
    fold quoted. fold title.
    rewrite (join_app [title]) by (done || by destruct quoted).
    rewrite (join_app quoted) by (done || by destruct hash_line).
    subst hash_line. destruct (truthy_opt hash).
    - rewrite (join_app [_]) by done. simpl join. by normalize_strings.
    - simpl app. simpl join. by normalize_strings. }
  apply split_LF_join; [done|].
  apply Forall_app. split; [by repeat constructor|].
  apply Forall_app. split.
  - subst quoted. apply Forall_fmap. eapply Forall_impl; [done|].
    intros arg Harg. simpl. by rewrite !LF_free_app, Harg.
  - apply Forall_app. split; [|by repeat constructor].
    subst hash_line. destruct (truthy_opt hash); [|done].
    repeat constructor. by rewrite LF_free_app, Hhash.
Qed.

Lemma spirv_opt_args_comment_lines_witness :
  split_LF (get_spirv_opt_args_comment (Some ["-O"; "--inline-entry-points-exhaustive"])
              (Some "a0370efd"))
  = [ "# Optimized using spirv-opt with the following arguments:";
      "# '-O'";
      "# '--inline-entry-points-exhaustive'";
      "# spirv-opt commit hash: a0370efd";
      ""; "" ].
Proof.
  apply (spirv_opt_args_comment_lines ["-O"; "--inline-entry-points-exhaustive"]
           (Some "a0370efd")).
  - discriminate.
  - repeat constructor.
  - reflexivity.
Defined.
